(** * The stub model of protoc-gen-mock: structural JSON matching

    A shallow embedding of [stub/model.go].  The file embeds

    - the decoded JSON documents that [encoding/json] stores in an
      [interface{}] ([any] below),
    - Go's run-time behaviour the code relies on: [fmt.Sprintf("%T", v)],
      the comparison [==] of two interface values (which panics on
      uncomparable dynamic types) and the dereference of a nil pointer,
    - [jsonStringMatches], [JsonString.Matches], [JsonString.Equals],
      [JsonString.MarshalJSON] and [StubType.UnmarshalJSON].

    Panics are explicit: every operation that can panic returns a [result]. *)

From Stdlib Require Import List String Ascii ZArith Bool Arith Lia Permutation.
From Stdlib Require Import Floats.SpecFloat.
Import ListNotations.
Local Open Scope string_scope.

(* ================================================================= *)
(** ** Go run-time: panics *)

Inductive runtime_error :=
| UncomparableType (t : string)   (* "comparing uncomparable type t" *)
| NilPointerDereference.          (* "invalid memory address or nil pointer dereference" *)

Inductive result (A : Type) :=
| Ret (a : A)
| Panic (e : runtime_error).
Arguments Ret {A} a.
Arguments Panic {A} e.

Definition bind {A B : Type} (r : result A) (k : A -> result B) : result B :=
  match r with
  | Ret a => k a
  | Panic e => Panic e
  end.

Notation "x <- r ;; k" := (bind r (fun x => k))
  (at level 61, r at next level, right associativity).

(* ================================================================= *)
(** ** Decoded JSON: the dynamic values held by [interface{}] *)

(** [encoding/json] decodes into [interface{}] with exactly these dynamic
    types: [nil] for null, [bool], [float64] for every number, [string],
    [[]interface{}] for arrays and [map[string]interface{}] for objects.
    A [float64] is an IEEE-754 binary64 datum ([spec_float]). A map is kept
    as the list of its entries; the order of the list is the order in which
    [range] visits the map in the run under consideration (Go leaves that
    order unspecified, the statements below quantify over every list). *)
#[local] Unset Elimination Schemes.
Inductive any :=
| VNil
| VBool (b : bool)
| VFloat64 (f : spec_float)
| VString (s : string)
| VSlice (items : list any)
| VMap (fields : list (string * any)).
#[local] Set Elimination Schemes.

Definition object := list (string * any).

(** [fmt.Sprintf("%T", v)] *)
Definition typeName (v : any) : string :=
  match v with
  | VNil => "<nil>"
  | VBool _ => "bool"
  | VFloat64 _ => "float64"
  | VString _ => "string"
  | VSlice _ => "[]interface {}"
  | VMap _ => "map[string]interface {}"
  end.

(** [a == b] on two interface values: different dynamic types are unequal,
    equal comparable types compare their values ([float64] by IEEE
    equality), and identical uncomparable types (slices, maps) panic. *)
Definition iface_eq (a b : any) : result bool :=
  match a, b with
  | VNil, VNil => Ret true
  | VBool x, VBool y => Ret (Bool.eqb x y)
  | VFloat64 x, VFloat64 y => Ret (SFeqb x y)
  | VString x, VString y => Ret (String.eqb x y)
  | VSlice _, VSlice _ => Panic (UncomparableType "[]interface {}")
  | VMap _, VMap _ => Panic (UncomparableType "map[string]interface {}")
  | _, _ => Ret false
  end.

(** [v, found := m[key]] *)
Fixpoint map_get (key : string) (m : object) : option any :=
  match m with
  | [] => None
  | (k, v) :: rest => if String.eqb key k then Some v else map_get key rest
  end.

(** [len(m)] *)
Definition len {A : Type} (l : list A) : nat := List.length l.

(** The integer [z] as a [float64] (round to nearest even). *)
Definition float64_of_Z (z : Z) : spec_float := binary_normalize 53 1024 z 0 false.

Definition num (z : Z) : any := VFloat64 (float64_of_Z z).

(* ================================================================= *)
(** ** The loops of [jsonStringMatches] *)

(** [for key, value := range jsonMap { if !body { return false } }; return true] *)
Definition range_fields (body : string -> any -> result bool)
  : object -> result bool :=
  fix loop (jsonMap : object) : result bool :=
    match jsonMap with
    | [] => Ret true
    | (key, value) :: rest =>
        ok <- body key value ;;
        if ok then loop rest else Ret false
    end.

(** The inner loop, lines 156-176.  A [break] inside a [switch] leaves the
    [switch] only, so every element of [otherItems] is visited and [found]
    records whether one of them compared equal. *)
Definition scan_otherItems (same : any -> result bool)
  : list any -> bool -> result bool :=
  fix loop (otherItems : list any) (found : bool) : result bool :=
    match otherItems with
    | [] => Ret found
    | otherItem :: rest =>
        hit <- same otherItem ;;
        loop rest (found || hit)
    end.

(** The outer loop, lines 154-180: [return false] at the first item for
    which the scan leaves [found] false. *)
Definition range_items (search : any -> result bool)
  : list any -> result bool :=
  fix loop (items : list any) : result bool :=
    match items with
    | [] => Ret true
    | item :: rest =>
        found <- search item ;;
        if found then loop rest else Ret false
    end.

(** Lines 135-185, the body of the loop over [jsonMap] once [otherValue]
    has been found: [Ret true] stands for reaching the next iteration,
    [Ret false] for [return false].  In the object case the recursive call
    of [jsonStringMatches] is unfolded (see [jsonStringMatches] and
    [value_matches_map] below). *)
Fixpoint value_matches (value otherValue : any) (mustBeEqual : bool)
  {struct value} : result bool :=
  let valueType := typeName value in
  let otherValueType := typeName otherValue in
  if negb (valueType =? otherValueType) then Ret false else
  match value, otherValue with
  | VMap jsonMap, VMap otherJsonMap =>
      if mustBeEqual && negb (len jsonMap =? len otherJsonMap)%nat then Ret false
      else
        range_fields
          (fun key value =>
             match map_get key otherJsonMap with
             | None => Ret false
             | Some otherValue => value_matches value otherValue mustBeEqual
             end) jsonMap
  | VSlice items, VSlice otherItems =>
      if negb (len items =? len otherItems)%nat then Ret false
      else
        range_items
          (fun item =>
             scan_otherItems
               (fun otherItem =>
                  let itemType := typeName item in
                  let otherItemType := typeName otherItem in
                  if negb (itemType =? otherItemType) then Ret false else
                  match item with
                  | VMap _ => value_matches item otherItem mustBeEqual
                  | _ => iface_eq item otherItem
                  end) otherItems false) items
  | _, _ =>
      same <- iface_eq value otherValue ;;
      Ret same
  end.

(** Lines 157-174, one iteration of the inner loop: does [otherItem]
    set [found] for [item]? *)
Definition item_equals (item otherItem : any) (mustBeEqual : bool) : result bool :=
  let itemType := typeName item in
  let otherItemType := typeName otherItem in
  if negb (itemType =? otherItemType) then Ret false else
  match item with
  | VMap _ => value_matches item otherItem mustBeEqual
  | _ => iface_eq item otherItem
  end.

(** Lines 149-180, the case of two arrays. *)
Definition slices_match (items otherItems : list any) (mustBeEqual : bool)
  : result bool :=
  if negb (len items =? len otherItems)%nat then Ret false
  else
    range_items
      (fun item =>
         scan_otherItems (fun otherItem => item_equals item otherItem mustBeEqual)
           otherItems false) items.

(** Lines 131-185, one iteration of the loop over [jsonMap]. *)
Definition field_matches (otherJsonMap : object) (mustBeEqual : bool)
  (key : string) (value : any) : result bool :=
  match map_get key otherJsonMap with
  | None => Ret false
  | Some otherValue => value_matches value otherValue mustBeEqual
  end.

(** The call returns (it does not panic). *)
Definition returns {A : Type} (r : result A) : Prop :=
  match r with
  | Ret _ => True
  | Panic _ => False
  end.

(** [func jsonStringMatches(jsonMap, otherJsonMap map[string]interface{}, mustBeEqual bool) bool] *)
Definition jsonStringMatches (jsonMap otherJsonMap : object) (mustBeEqual : bool)
  : result bool :=
  if mustBeEqual && negb (len jsonMap =? len otherJsonMap)%nat then Ret false
  else
    range_fields
      (fun key value =>
         match map_get key otherJsonMap with
         | None => Ret false
         | Some otherValue => value_matches value otherValue mustBeEqual
         end) jsonMap.

(* ================================================================= *)
(** ** [JsonString] and [StubType]: the text level *)

Definition JsonString := string.
Definition StubType := string.

(** Go's [error] values that occur in this file. *)
Inductive error :=
| SyntaxError            (* *json.SyntaxError *)
| UnmarshalTypeError.    (* *json.UnmarshalTypeError *)

(** [func (j JsonString) String() string] *)
Definition JsonString_String (j : JsonString) : string := j.

(** [func (j *JsonString) MarshalJSON() ([]byte, error)] *)
Definition MarshalJSON (j : JsonString) : string * option error :=
  let val := j in
  if val =? "" then ("{}", None) else (val, None).

Section Decoding.

(** The scanner and decoder of [encoding/json] are not part of this
    repository.  [json_decode data] is the tree that
    [json.Unmarshal(data, &v)] stores in a [v] of type [interface{}], and
    [None] when [data] is not valid JSON.  [json_Compact data] is the
    text [json.Compact] appends to its buffer, and [None] when it returns
    an error (the buffer is then left as it was). *)
Variable json_decode : string -> option any.
Variable json_Compact : string -> option string.

(** [m := new(map[string]interface{}); err := json.Unmarshal(data, m)]:
    the entries of [*m] afterwards, and [err].  The map stays nil (no
    entries) when [data] is not valid JSON, is set to nil by a JSON null,
    and stays nil with a type error when the document is not an object. *)
Definition Unmarshal_new_map (data : string) : object * option error :=
  match json_decode data with
  | None => ([], Some SyntaxError)
  | Some (VMap fields) => (fields, None)
  | Some VNil => ([], None)
  | Some _ => ([], Some UnmarshalTypeError)
  end.

(** [var str *string; err := json.Unmarshal(data, &str)]: [str]
    afterwards ([None] is the nil pointer), and [err].  A JSON null sets
    the pointer to nil; for any other valid document the string is
    allocated before its kind is looked at, so a non-string leaves an
    empty string behind. *)
Definition Unmarshal_new_string_ptr (data : string) : option string * option error :=
  match json_decode data with
  | None => (None, Some SyntaxError)
  | Some VNil => (None, None)
  | Some (VString s) => (Some s, None)
  | Some _ => (Some "", Some UnmarshalTypeError)
  end.

(** The entries of the map that [Matches] and [Equals] decode [data]
    into. *)
Definition entries (data : string) : object := fst (Unmarshal_new_map data).

(** [func (j *JsonString) UnmarshalJSON(data []byte) error]: the new
    [*j] and the returned error. *)
Definition JsonString_UnmarshalJSON (data : string) : JsonString * option error :=
  let buffer := match json_Compact data with
                | Some compacted => compacted
                | None => ""          (* the error is logged, not returned *)
                end in
  let result := buffer in
  (result, None).

(** [func (j *JsonString) Matches(other JsonString) bool] *)
Definition Matches (j other : JsonString) : result bool :=
  let jsonMap := fst (Unmarshal_new_map j) in
  let otherJsonMap := fst (Unmarshal_new_map other) in
  jsonStringMatches jsonMap otherJsonMap false.

(** [func (j *JsonString) Equals(other JsonString) bool] *)
Definition Equals (j other : JsonString) : result bool :=
  let jsonMap := fst (Unmarshal_new_map j) in
  let otherJsonMap := fst (Unmarshal_new_map other) in
  jsonStringMatches jsonMap otherJsonMap true.

(** [func (j *StubType) UnmarshalJSON(data []byte) error]: the new [*j]
    and the returned error, or the panic of [*str] on a nil [str]. *)
Definition StubType_UnmarshalJSON (data : string) : result (StubType * option error) :=
  let str := fst (Unmarshal_new_string_ptr data) in
  match str with
  | None => Panic NilPointerDereference
  | Some s =>
      let s := if s =? "" then "mock" else s in
      Ret (s, None)
  end.

(** The field [Type StubType `json:"type"`] of a freshly allocated [Stub]
    after [encoding/json] has decoded a stub record into it.
    [typeField] is the raw text of the value stored under the key
    ["type"], [None] when the record has no such key: the decoder calls
    [UnmarshalJSON] for the keys it meets in the input and leaves every
    other field at its zero value. *)
Definition Stub_Type_decoded (typeField : option string) : result StubType :=
  match typeField with
  | None => Ret ""
  | Some data =>
      r <- StubType_UnmarshalJSON data ;;
      Ret (fst r)
  end.

End Decoding.

(* ================================================================= *)
(** ** Predicates on decoded documents *)

Definition is_slice (v : any) : bool :=
  match v with VSlice _ => true | _ => false end.

Definition is_map (v : any) : bool :=
  match v with VMap _ => true | _ => false end.

(** No array is an element of an array, at any depth. *)
Fixpoint nested_slice_free (v : any) : bool :=
  match v with
  | VSlice items =>
      forallb (fun item => negb (is_slice item) && nested_slice_free item) items
  | VMap fields => forallb (fun kv => nested_slice_free (snd kv)) fields
  | _ => true
  end.

Definition is_nan (f : spec_float) : bool :=
  match f with S754_nan => true | _ => false end.

Fixpoint distinct (keys : list string) : bool :=
  match keys with
  | [] => true
  | k :: rest => negb (existsb (String.eqb k) rest) && distinct rest
  end.

(** What the decoder guarantees of a tree: the keys of a map are pairwise
    distinct and no number is a NaN. *)
Fixpoint decoded (v : any) : bool :=
  match v with
  | VFloat64 f => negb (is_nan f)
  | VSlice items => forallb decoded items
  | VMap fields =>
      distinct (map fst fields) && forallb (fun kv => decoded (snd kv)) fields
  | _ => true
  end.

(** Some object of the document, at any depth, has a field named [k]. *)
Fixpoint has_field (k : string) (v : any) : bool :=
  match v with
  | VSlice items => existsb (has_field k) items
  | VMap fields => existsb (fun kv => (fst kv =? k) || has_field k (snd kv)) fields
  | _ => false
  end.

(** The object reached from [m] through the object-valued fields [path]. *)
Fixpoint object_at (path : list string) (m : object) : option object :=
  match path with
  | [] => Some m
  | key :: rest =>
      match map_get key m with
      | Some (VMap sub) => object_at rest sub
      | _ => None
      end
  end.

Definition spec_float_same (x y : spec_float) : bool :=
  match x, y with
  | S754_zero s, S754_zero s' => Bool.eqb s s'
  | S754_infinity s, S754_infinity s' => Bool.eqb s s'
  | S754_nan, S754_nan => true
  | S754_finite s m e, S754_finite s' m' e' =>
      Bool.eqb s s' && Pos.eqb m m' && Z.eqb e e'
  | _, _ => false
  end.

Definition pointwise (f : any -> any -> bool) : list any -> list any -> bool :=
  fix go (l l' : list any) : bool :=
    match l, l' with
    | [], [] => true
    | x :: r, x' :: r' => f x x' && go r r'
    | _, _ => false
    end.

(** [extends a a'] : [a'] is [a] with fields added to objects, at any
    depth (inside array elements too); nothing else differs. *)
Fixpoint extends (a a' : any) {struct a} : bool :=
  match a, a' with
  | VNil, VNil => true
  | VBool b, VBool b' => Bool.eqb b b'
  | VFloat64 f, VFloat64 f' => spec_float_same f f'
  | VString s, VString s' => String.eqb s s'
  | VSlice items, VSlice items' => pointwise extends items items'
  | VMap fields, VMap fields' =>
      forallb (fun kv => match map_get (fst kv) fields' with
                         | Some v' => extends (snd kv) v'
                         | None => false
                         end) fields
  | _, _ => false
  end.

(** [otherItem] is a counterpart of [item] in the sense of the array
    rule: it has the same JSON kind and it matches [item], by
    [jsonStringMatches] when both are objects and by [==] otherwise. *)
Definition counterpart (mustBeEqual : bool) (item otherItem : any) : Prop :=
  typeName item = typeName otherItem
  /\ match item, otherItem with
     | VMap jsonMap, VMap otherJsonMap =>
         jsonStringMatches jsonMap otherJsonMap mustBeEqual = Ret true
     | _, _ => iface_eq item otherItem = Ret true
     end.

(* ================================================================= *)
(** ** A decoder for a fragment of JSON

    The statements about [Matches], [Equals] and [StubType] hold for every
    decoder.  To run them on texts, [Sample.decode] reads the fragment of
    JSON made of objects, arrays, strings without escapes, integer
    numerals, [true], [false] and [null], with blanks between tokens.  It
    rejects every other text, also valid JSON outside the fragment. *)
Module Sample.

Local Open Scope char_scope.

(** The text [s] between double quotes. *)
Definition quoted (s : string) : string :=
  String "034" (s ++ String "034" EmptyString).

Definition is_blank (c : ascii) : bool :=
  (c =? " ") || (c =? "009") || (c =? "010") || (c =? "013").

Fixpoint skip_blanks (s : list ascii) : list ascii :=
  match s with
  | c :: r => if is_blank c then skip_blanks r else s
  | [] => []
  end.

Fixpoint strip_prefix (p s : list ascii) : option (list ascii) :=
  match p, s with
  | [], _ => Some s
  | a :: p', c :: s' => if (a =? c) then strip_prefix p' s' else None
  | _ :: _, [] => None
  end.

(** The characters of a string up to its closing quote. *)
Fixpoint read_string (s : list ascii) : option (string * list ascii) :=
  match s with
  | [] => None
  | c :: r =>
      if c =? "034" then Some (EmptyString, r)
      else if (c =? "\") || (nat_of_ascii c <? 32)%nat then None
      else match read_string r with
           | Some (str, r') => Some (String c str, r')
           | None => None
           end
  end.

Definition digit (c : ascii) : option Z :=
  let n := nat_of_ascii c in
  if ((48 <=? n) && (n <=? 57))%nat then Some (Z.of_nat (n - 48)) else None.

Fixpoint read_digits (s : list ascii) (acc : Z) : Z * list ascii :=
  match s with
  | c :: r =>
      match digit c with
      | Some d => read_digits r (10 * acc + d)%Z
      | None => (acc, s)
      end
  | [] => (acc, [])
  end.

(** An integer numeral: an optional minus sign, then [0] or a digit
    sequence that does not start with [0]; a fraction or an exponent
    after it is outside the fragment. *)
Definition read_number (s : list ascii) : option (any * list ascii) :=
  let '(negative, s) := match s with
                        | "-" :: r => (true, r)
                        | _ => (false, s)
                        end in
  match s with
  | c :: r =>
      match digit c with
      | Some d =>
          let '(n, rest) := if (d =? 0)%Z then (0%Z, r) else read_digits r d in
          match rest with
          | c' :: _ =>
              if (c' =? ".") || (c' =? "e") || (c' =? "E")
                 || match digit c' with Some _ => true | None => false end
              then None
              else Some (VFloat64 (binary_normalize 53 1024
                                     (if negative then (- n)%Z else n) 0 negative), rest)
          | [] => Some (VFloat64 (binary_normalize 53 1024
                                    (if negative then (- n)%Z else n) 0 negative), rest)
          end
      | None => None
      end
  | [] => None
  end.

(** Storing a key in a map replaces the value the key already has. *)
Fixpoint map_set (key : string) (v : any) (m : object) : object :=
  match m with
  | [] => [(key, v)]
  | (k, w) :: rest =>
      if String.eqb key k then (k, v) :: rest else (k, w) :: map_set key v rest
  end.

Fixpoint read_value (fuel : nat) (s : list ascii) : option (any * list ascii) :=
  match fuel with
  | O => None
  | S fuel =>
      match skip_blanks s with
      | [] => None
      | c :: r =>
          if c =? "{" then
            match skip_blanks r with
            | "}" :: r' => Some (VMap [], r')
            | _ => read_members fuel r []
            end
          else if c =? "[" then
            match skip_blanks r with
            | "]" :: r' => Some (VSlice [], r')
            | _ => read_elements fuel r []
            end
          else if c =? "034" then
            match read_string r with
            | Some (str, r') => Some (VString str, r')
            | None => None
            end
          else if c =? "n" then
            option_map (fun r' => (VNil, r')) (strip_prefix ["u"; "l"; "l"] r)
          else if c =? "t" then
            option_map (fun r' => (VBool true, r')) (strip_prefix ["r"; "u"; "e"] r)
          else if c =? "f" then
            option_map (fun r' => (VBool false, r')) (strip_prefix ["a"; "l"; "s"; "e"] r)
          else read_number (c :: r)
      end
  end
with read_elements (fuel : nat) (s : list ascii) (acc : list any)
  : option (any * list ascii) :=
  match fuel with
  | O => None
  | S fuel =>
      match read_value fuel s with
      | Some (v, r) =>
          match skip_blanks r with
          | "," :: r' => read_elements fuel r' (acc ++ [v])
          | "]" :: r' => Some (VSlice (acc ++ [v]), r')
          | _ => None
          end
      | None => None
      end
  end
with read_members (fuel : nat) (s : list ascii) (acc : object)
  : option (any * list ascii) :=
  match fuel with
  | O => None
  | S fuel =>
      match skip_blanks s with
      | "034" :: r =>
          match read_string r with
          | Some (key, r1) =>
              match skip_blanks r1 with
              | ":" :: r2 =>
                  match read_value fuel r2 with
                  | Some (v, r3) =>
                      match skip_blanks r3 with
                      | "," :: r4 => read_members fuel r4 (map_set key v acc)
                      | "}" :: r4 => Some (VMap (map_set key v acc), r4)
                      | _ => None
                      end
                  | None => None
                  end
              | _ => None
              end
          | None => None
          end
      | _ => None
      end
  end.

Definition decode (data : string) : option any :=
  match read_value (2 * String.length data + 2) (list_ascii_of_string data) with
  | Some (v, rest) =>
      match skip_blanks rest with
      | [] => Some v
      | _ => None
      end
  | None => None
  end.

(** The text of a document of the fragment without its blanks outside
    strings, when [decode] accepts it. *)
Fixpoint drop_blanks (in_string : bool) (s : list ascii) : list ascii :=
  match s with
  | [] => []
  | c :: r =>
      if c =? "034" then c :: drop_blanks (negb in_string) r
      else if negb in_string && is_blank c then drop_blanks in_string r
      else c :: drop_blanks in_string r
  end.

Definition Compact (data : string) : option string :=
  match decode data with
  | Some _ => Some (string_of_list_ascii (drop_blanks false (list_ascii_of_string data)))
  | None => None
  end.

End Sample.


(* ================================================================= *)
(** ** The documents and texts of the examples *)

Definition doc_a1 : object := [("a", num 1)].
Definition doc_a1_b2 : object := [("a", num 1); ("b", num 2)].
Definition doc_nested : object := [("a", VMap [("x", num 1)])].
Definition doc_nested_wide : object :=
  [("a", VMap [("x", num 1); ("y", num 2)]); ("b", VString "more")].
Definition doc_nested_deep : object := [("a", VMap [("x", num 1); ("y", num 2)])].
Definition doc_twice_b1 : object :=
  [("a", VSlice [VMap [("b", num 1)]; VMap [("b", num 1)]])].
Definition doc_b1_b1c2 : object :=
  [("a", VSlice [VMap [("b", num 1)]; VMap [("b", num 1); ("c", num 2)]])].

Definition text_a1 : JsonString := "{" ++ Sample.quoted "a" ++ ":1}".
Definition text_a1_b2 : JsonString :=
  "{" ++ Sample.quoted "a" ++ ":1," ++ Sample.quoted "b" ++ ":2}".
Definition text_nested_array : JsonString := "{" ++ Sample.quoted "a" ++ ":[[1]]}".
Definition text_truncated : JsonString := "{" ++ Sample.quoted "a" ++ ":".
Definition text_array : JsonString := "[1,2]".

(* ================================================================= *)
(** ** Further predicates and documents *)

(** The document holds no array at all. *)
Fixpoint slice_free (v : any) : bool :=
  match v with
  | VSlice _ => false
  | VMap fields => forallb (fun kv => slice_free (snd kv)) fields
  | _ => true
  end.

(** The field names of a map. *)
Definition keys (m : object) : list string := map fst m.

Definition doc_a12 : object := [("a", VSlice [num 1; num 2])].
Definition doc_a21 : object := [("a", VSlice [num 2; num 1])].
Definition doc_a11 : object := [("a", VSlice [num 1; num 1])].
Definition doc_b2_a1 : object := [("b", num 2); ("a", num 1)].
Definition doc_a1_b2_c3 : object := [("a", num 1); ("b", num 2); ("c", num 3)].
Definition doc_a_text : object := [("a", VString "1")].
Definition doc_nested_array : object := [("a", VSlice [VSlice [num 1]])].
Definition text_forward : string := Sample.quoted "forward".
Definition text_empty_string : string := Sample.quoted "".
Definition text_spaced : string := "{ " ++ Sample.quoted "a" ++ " : 1 }".

(* ================================================================= *)
(** * Properties *)

(** ** Induction on decoded documents *)

Lemma any_ind (P : any -> Prop)
  (Hnil : P VNil)
  (Hbool : forall b, P (VBool b))
  (Hfloat : forall f, P (VFloat64 f))
  (Hstring : forall s, P (VString s))
  (Hslice : forall items, Forall P items -> P (VSlice items))
  (Hmap : forall fields, Forall (fun kv => P (snd kv)) fields -> P (VMap fields)) :
  forall v, P v.
Proof.
  fix IH 1. intros [ | b | f | s | items | fields ].
  - exact Hnil.
  - apply Hbool.
  - apply Hfloat.
  - apply Hstring.
  - apply Hslice. induction items as [ | item items IHitems ].
    + constructor.
    + constructor; [ apply IH | exact IHitems ].
  - apply Hmap. induction fields as [ | [key value] fields IHfields ].
    + constructor.
    + constructor; [ apply IH | exact IHfields ].
Qed.

(** ** The source blocks inside [value_matches] *)

Lemma value_matches_map (jsonMap otherJsonMap : object) (mustBeEqual : bool) :
  value_matches (VMap jsonMap) (VMap otherJsonMap) mustBeEqual
  = jsonStringMatches jsonMap otherJsonMap mustBeEqual.
Proof. reflexivity. Qed.

Lemma value_matches_slice (items otherItems : list any) (mustBeEqual : bool) :
  value_matches (VSlice items) (VSlice otherItems) mustBeEqual
  = slices_match items otherItems mustBeEqual.
Proof. reflexivity. Qed.

Lemma jsonStringMatches_unfold (jsonMap otherJsonMap : object) (mustBeEqual : bool) :
  jsonStringMatches jsonMap otherJsonMap mustBeEqual
  = if mustBeEqual && negb (len jsonMap =? len otherJsonMap)%nat then Ret false
    else range_fields (field_matches otherJsonMap mustBeEqual) jsonMap.
Proof. reflexivity. Qed.

Lemma typeName_eqb_refl (v : any) : (typeName v =? typeName v) = true.
Proof. apply String.eqb_refl. Qed.

Lemma value_matches_kind (value otherValue : any) (mustBeEqual : bool) :
  (typeName value =? typeName otherValue) = false ->
  value_matches value otherValue mustBeEqual = Ret false.
Proof.
  intros H. destruct value; simpl in *; rewrite H; reflexivity.
Qed.

(** ** The three loops *)

Lemma range_fields_true (body : string -> any -> result bool) (jsonMap : object) :
  range_fields body jsonMap = Ret true
  <-> Forall (fun kv => body (fst kv) (snd kv) = Ret true) jsonMap.
Proof.
  induction jsonMap as [ | [key value] rest IH ]; simpl.
  - split; [ constructor | reflexivity ].
  - destruct (body key value) as [ [ | ] | e ] eqn:Hb; simpl.
    + rewrite IH. split.
      * intros H. constructor; [ exact Hb | exact H ].
      * intros H. inversion H; assumption.
    + split; [ discriminate | ].
      intros H. inversion H as [ | ? ? Hhd ? ]. simpl in Hhd. congruence.
    + split; [ discriminate | ].
      intros H. inversion H as [ | ? ? Hhd ? ]. simpl in Hhd. congruence.
Qed.

Lemma range_fields_returns (body : string -> any -> result bool) (jsonMap : object) :
  Forall (fun kv => returns (body (fst kv) (snd kv))) jsonMap ->
  returns (range_fields body jsonMap).
Proof.
  induction 1 as [ | [key value] rest Hhd _ IH ]; simpl.
  - exact I.
  - simpl in Hhd. destruct (body key value) as [ [ | ] | e ]; simpl;
      [ exact IH | exact I | contradiction ].
Qed.

Lemma range_items_true (search : any -> result bool) (items : list any) :
  range_items search items = Ret true
  <-> Forall (fun item => search item = Ret true) items.
Proof.
  induction items as [ | item rest IH ]; simpl.
  - split; [ constructor | reflexivity ].
  - destruct (search item) as [ [ | ] | e ] eqn:Hs; simpl.
    + rewrite IH. split.
      * intros H. constructor; assumption.
      * intros H. inversion H; assumption.
    + split; [ discriminate | ]. intros H. inversion H. congruence.
    + split; [ discriminate | ]. intros H. inversion H. congruence.
Qed.

Lemma range_items_returns (search : any -> result bool) (items : list any) :
  Forall (fun item => returns (search item)) items ->
  returns (range_items search items).
Proof.
  induction 1 as [ | item rest Hhd _ IH ]; simpl.
  - exact I.
  - destruct (search item) as [ [ | ] | e ]; simpl;
      [ exact IH | exact I | contradiction ].
Qed.

(** The scan returns [found || (one element compared equal)] when no
    comparison panics, and panics otherwise. *)
Lemma scan_otherItems_spec (same : any -> result bool) (otherItems : list any) :
  forall (found b : bool),
    scan_otherItems same otherItems found = Ret b
    <-> Forall (fun o => returns (same o)) otherItems
        /\ b = found || existsb (fun o => match same o with
                                          | Ret hit => hit
                                          | Panic _ => false
                                          end) otherItems.
Proof.
  induction otherItems as [ | o rest IH ]; intros found b; simpl.
  - rewrite orb_false_r. split.
    + intros H. injection H as <-. split; [ constructor | reflexivity ].
    + intros [_ ->]. reflexivity.
  - destruct (same o) as [ hit | e ] eqn:Hs; simpl.
    + rewrite IH, orb_assoc. split.
      * intros [Hall ->]. split; [ constructor; [ rewrite Hs; exact I | exact Hall ] | reflexivity ].
      * intros [Hall ->]. split; [ inversion Hall; assumption | reflexivity ].
    + split; [ discriminate | ].
      intros [Hall _]. inversion Hall as [ | ? ? Hhd ? ]. rewrite Hs in Hhd. contradiction.
Qed.

Lemma scan_otherItems_true (same : any -> result bool) (otherItems : list any) :
  scan_otherItems same otherItems false = Ret true
  <-> Forall (fun o => returns (same o)) otherItems
      /\ Exists (fun o => same o = Ret true) otherItems.
Proof.
  rewrite scan_otherItems_spec. simpl.
  split; intros [Hall H]; (split; [ exact Hall | ]).
  - symmetry in H. apply existsb_exists in H. destruct H as [o [Hin Ho]].
    apply Exists_exists. exists o. split; [ exact Hin | ].
    destruct (same o) as [ [ | ] | ]; congruence.
  - symmetry. apply existsb_exists. apply Exists_exists in H.
    destruct H as [o [Hin Ho]]. exists o. rewrite Ho. split; [ exact Hin | reflexivity ].
Qed.

Lemma scan_otherItems_returns (same : any -> result bool) (otherItems : list any)
  (found : bool) :
  Forall (fun o => returns (same o)) otherItems ->
  returns (scan_otherItems same otherItems found).
Proof.
  intros Hall.
  destruct (scan_otherItems same otherItems found) as [ b | e ] eqn:H; [ exact I | ].
  pose proof (proj2 (scan_otherItems_spec same otherItems found _) (conj Hall eq_refl)) as H'.
  congruence.
Qed.

(** ** When the comparator panics *)

Lemma iface_eq_scalar_returns (a b : any) :
  is_slice a = false -> is_map a = false -> returns (iface_eq a b).
Proof.
  intros Hs Hm. destruct a, b; simpl in *; try exact I; discriminate.
Qed.

Lemma item_equals_returns (item otherItem : any) (mustBeEqual : bool) :
  is_slice item = false ->
  (forall ov, returns (value_matches item ov mustBeEqual)) ->
  returns (item_equals item otherItem mustBeEqual).
Proof.
  intros Hs Hrec. unfold item_equals.
  destruct (typeName item =? typeName otherItem); simpl; [ | exact I ].
  destruct item; try (apply iface_eq_scalar_returns; reflexivity).
  - discriminate.
  - apply Hrec.
Qed.

(** A document without an array inside an array is compared without a
    panic, whatever it is compared with. *)
Lemma value_matches_returns (value : any) :
  nested_slice_free value = true ->
  forall (otherValue : any) (mustBeEqual : bool),
    returns (value_matches value otherValue mustBeEqual).
Proof.
  induction value as [ | b | f | s | items IH | fields IH ] using any_ind;
    intros Hfree otherValue mustBeEqual.
  - destruct otherValue; exact I.
  - destruct otherValue; exact I.
  - destruct otherValue; exact I.
  - destruct otherValue; exact I.
  - destruct otherValue as [ | | | | otherItems | ]; try exact I.
    rewrite value_matches_slice. unfold slices_match.
    destruct (negb (len items =? len otherItems)%nat); [ exact I | ].
    apply range_items_returns.
    simpl in Hfree. rewrite forallb_forall in Hfree. rewrite Forall_forall in IH |- *.
    intros item Hin. apply scan_otherItems_returns. apply Forall_forall.
    intros otherItem _.
    specialize (Hfree item Hin). apply andb_true_iff in Hfree as [Hns Hfree].
    apply item_equals_returns.
    + now apply negb_true_iff in Hns.
    + intros ov. now apply IH.
  - destruct otherValue as [ | | | | | otherJsonMap ]; try exact I.
    rewrite value_matches_map, jsonStringMatches_unfold.
    destruct (mustBeEqual && negb (len fields =? len otherJsonMap)%nat); [ exact I | ].
    apply range_fields_returns.
    simpl in Hfree. rewrite forallb_forall in Hfree. rewrite Forall_forall in IH |- *.
    intros [key value] Hin. simpl. unfold field_matches.
    destruct (map_get key otherJsonMap) as [ otherValue | ]; [ | exact I ].
    apply (IH (key, value) Hin). apply (Hfree (key, value) Hin).
Qed.

Lemma jsonStringMatches_returns (jsonMap otherJsonMap : object) (mustBeEqual : bool) :
  nested_slice_free (VMap jsonMap) = true ->
  returns (jsonStringMatches jsonMap otherJsonMap mustBeEqual).
Proof.
  intros H. rewrite <- value_matches_map. now apply value_matches_returns.
Qed.

Lemma item_equals_true_inv (item otherItem : any) (mustBeEqual : bool) :
  item_equals item otherItem mustBeEqual = Ret true ->
  is_slice item = false
  /\ (typeName item =? typeName otherItem) = true
  /\ (is_map item = true -> value_matches item otherItem mustBeEqual = Ret true)
  /\ (is_map item = false -> iface_eq item otherItem = Ret true).
Proof.
  unfold item_equals.
  destruct (typeName item =? typeName otherItem) eqn:Hk; simpl; [ | discriminate ].
  destruct item, otherItem; simpl in *; try discriminate;
    intros H; repeat split; try reflexivity; try discriminate; intros _; exact H.
Qed.

(** A comparison that succeeds has read the whole expected document, and
    found no array inside an array there. *)
Lemma value_matches_true_free (value : any) :
  forall (otherValue : any) (mustBeEqual : bool),
    value_matches value otherValue mustBeEqual = Ret true ->
    nested_slice_free value = true.
Proof.
  induction value as [ | b | f | s | items IH | fields IH ] using any_ind;
    intros otherValue mustBeEqual H; try reflexivity.
  - destruct otherValue as [ | | | | otherItems | ]; try discriminate.
    rewrite value_matches_slice in H. unfold slices_match in H.
    destruct (negb (len items =? len otherItems)%nat); [ discriminate | ].
    apply range_items_true in H.
    simpl. apply forallb_forall. intros item Hin.
    rewrite Forall_forall in H, IH.
    specialize (H item Hin). apply scan_otherItems_true in H as [_ Hex].
    apply Exists_exists in Hex as [otherItem [_ Heq]].
    apply item_equals_true_inv in Heq as [Hs [_ [Hm Hsc]]].
    rewrite Hs. simpl.
    destruct (is_map item) eqn:Him.
    + apply (IH item Hin otherItem mustBeEqual). now apply Hm.
    + destruct item; try reflexivity; discriminate.
  - destruct otherValue as [ | | | | | otherJsonMap ]; try discriminate.
    rewrite value_matches_map, jsonStringMatches_unfold in H.
    destruct (mustBeEqual && negb (len fields =? len otherJsonMap)%nat); [ discriminate | ].
    apply range_fields_true in H.
    simpl. apply forallb_forall. intros [key value] Hin.
    rewrite Forall_forall in H, IH.
    specialize (H (key, value) Hin). simpl in H. unfold field_matches in H.
    destruct (map_get key otherJsonMap) as [ otherValue | ]; [ | discriminate ].
    apply (IH (key, value) Hin otherValue mustBeEqual H).
Qed.

(** ** The array rule *)

Lemma counterpart_item_equals (mustBeEqual : bool) (item otherItem : any) :
  counterpart mustBeEqual item otherItem
  <-> item_equals item otherItem mustBeEqual = Ret true.
Proof.
  unfold counterpart, item_equals. split.
  - intros [Hk H]. rewrite Hk, String.eqb_refl. simpl.
    destruct item, otherItem; try discriminate; exact H.
  - destruct (typeName item =? typeName otherItem) eqn:Hk; simpl; [ | discriminate ].
    apply String.eqb_eq in Hk. intros H. split; [ exact Hk | ].
    destruct item, otherItem; try discriminate; exact H.
Qed.

Lemma item_equals_true_free (item otherItem : any) (mustBeEqual : bool) :
  item_equals item otherItem mustBeEqual = Ret true ->
  is_slice item = false /\ nested_slice_free item = true.
Proof.
  intros H. apply item_equals_true_inv in H as [Hs [_ [Hm _]]].
  split; [ exact Hs | ].
  destruct (is_map item) eqn:Him.
  - apply (value_matches_true_free item otherItem mustBeEqual). now apply Hm.
  - destruct item; try reflexivity; discriminate.
Qed.

(** An item that has a counterpart somewhere is compared with every
    element without a panic, in either mode. *)
Lemma item_equals_all_return (item witness : any) (m m' : bool) (otherItems : list any) :
  item_equals item witness m = Ret true ->
  Forall (fun o => returns (item_equals item o m')) otherItems.
Proof.
  intros H. apply item_equals_true_free in H as [Hs Hfree].
  apply Forall_forall. intros o _.
  apply item_equals_returns; [ exact Hs | ].
  intros ov. now apply value_matches_returns.
Qed.

Lemma slices_match_true (items otherItems : list any) (mustBeEqual : bool) :
  slices_match items otherItems mustBeEqual = Ret true
  <-> len items = len otherItems
      /\ forall item, In item items ->
           exists otherItem, In otherItem otherItems
                             /\ counterpart mustBeEqual item otherItem.
Proof.
  unfold slices_match.
  destruct (len items =? len otherItems)%nat eqn:Hlen; simpl.
  - apply Nat.eqb_eq in Hlen. rewrite range_items_true, Forall_forall.
    split.
    + intros H. split; [ exact Hlen | ]. intros item Hin.
      specialize (H item Hin). apply scan_otherItems_true in H as [_ Hex].
      apply Exists_exists in Hex as [o [Ho Heq]].
      exists o. split; [ exact Ho | ]. now apply counterpart_item_equals.
    + intros [_ H] item Hin. destruct (H item Hin) as [o [Ho Hc]].
      apply counterpart_item_equals in Hc.
      apply scan_otherItems_true. split.
      * apply (item_equals_all_return item o mustBeEqual). exact Hc.
      * apply Exists_exists. exists o. split; assumption.
  - apply Nat.eqb_neq in Hlen. split; [ discriminate | ]. intros [H _]. contradiction.
Qed.

(** ** Exact mode against partial mode *)

Lemma value_matches_exact_partial (value : any) :
  forall otherValue,
    value_matches value otherValue true = Ret true ->
    value_matches value otherValue false = Ret true.
Proof.
  induction value as [ | b | f | s | items IH | fields IH ] using any_ind;
    intros otherValue H.
  - destruct otherValue; exact H.
  - destruct otherValue; exact H.
  - destruct otherValue; exact H.
  - destruct otherValue; exact H.
  - destruct otherValue as [ | | | | otherItems | ]; try discriminate.
    rewrite value_matches_slice in *.
    apply slices_match_true in H as [Hlen H]. apply slices_match_true.
    split; [ exact Hlen | ]. intros item Hin.
    destruct (H item Hin) as [o [Ho Hc]]. exists o. split; [ exact Ho | ].
    apply counterpart_item_equals. apply counterpart_item_equals in Hc.
    pose proof (item_equals_true_inv _ _ _ Hc) as [Hs [Hk [Hm Hsc]]].
    unfold item_equals. rewrite Hk. simpl.
    rewrite Forall_forall in IH.
    destruct item; try (apply Hsc; reflexivity).
    apply (IH _ Hin). now apply Hm.
  - destruct otherValue as [ | | | | | otherJsonMap ]; try discriminate.
    rewrite value_matches_map, jsonStringMatches_unfold in *.
    destruct (true && negb (len fields =? len otherJsonMap)%nat); [ discriminate | ].
    simpl. rewrite range_fields_true in *.
    rewrite Forall_forall in *. intros [key value] Hin.
    specialize (H _ Hin). simpl in *. unfold field_matches in *.
    destruct (map_get key otherJsonMap) as [ otherValue | ]; [ | discriminate ].
    apply (IH _ Hin). exact H.
Qed.

Lemma jsonStringMatches_exact_partial (jsonMap otherJsonMap : object) :
  jsonStringMatches jsonMap otherJsonMap true = Ret true ->
  jsonStringMatches jsonMap otherJsonMap false = Ret true.
Proof.
  rewrite <- !value_matches_map. apply value_matches_exact_partial.
Qed.

(** ** Lookups *)

Lemma map_get_In (key : string) (m : object) (v : any) :
  map_get key m = Some v -> In (key, v) m.
Proof.
  induction m as [ | [k w] rest IH ]; simpl; [ discriminate | ].
  destruct (String.eqb key k) eqn:Hk.
  - apply String.eqb_eq in Hk. subst k. intros H. injection H as ->. now left.
  - intros H. right. now apply IH.
Qed.

Lemma existsb_eqb_In (k : string) (keys : list string) :
  existsb (String.eqb k) keys = true <-> In k keys.
Proof.
  rewrite existsb_exists. split.
  - intros [x [Hin Heq]]. apply String.eqb_eq in Heq. now subst x.
  - intros Hin. exists k. split; [ exact Hin | apply String.eqb_refl ].
Qed.

Lemma map_get_distinct (m : object) (key : string) (v : any) :
  distinct (map fst m) = true -> In (key, v) m -> map_get key m = Some v.
Proof.
  induction m as [ | [k w] rest IH ]; simpl; [ contradiction | ].
  intros Hd Hin. apply andb_true_iff in Hd as [Hfresh Hd].
  apply negb_true_iff in Hfresh.
  destruct Hin as [Heq | Hin].
  - injection Heq as -> ->. now rewrite String.eqb_refl.
  - destruct (String.eqb key k) eqn:Hk.
    + apply String.eqb_eq in Hk. subst k. exfalso.
      assert (Hex : existsb (String.eqb key) (map fst rest) = true).
      { apply existsb_eqb_In. apply in_map_iff. exists (key, v). split; [ reflexivity | exact Hin ]. }
      congruence.
    + now apply IH.
Qed.

(** ** In partial mode, fields added to the actual document are not seen *)

Lemma jsonStringMatches_partial_true (jsonMap otherJsonMap : object) :
  jsonStringMatches jsonMap otherJsonMap false = Ret true
  <-> forall key value, In (key, value) jsonMap ->
        exists otherValue, map_get key otherJsonMap = Some otherValue
                           /\ value_matches value otherValue false = Ret true.
Proof.
  rewrite jsonStringMatches_unfold. simpl. rewrite range_fields_true, Forall_forall.
  split.
  - intros H key value Hin. specialize (H _ Hin). simpl in H. unfold field_matches in H.
    destruct (map_get key otherJsonMap) as [ otherValue | ]; [ | discriminate ].
    exists otherValue. split; [ reflexivity | exact H ].
  - intros H [key value] Hin. simpl. unfold field_matches.
    destruct (H _ _ Hin) as [otherValue [-> Hm]]. exact Hm.
Qed.

Lemma spec_float_same_eq (x y : spec_float) : spec_float_same x y = true -> x = y.
Proof.
  destruct x, y; simpl; try discriminate; try reflexivity.
  - intros H. apply Bool.eqb_prop in H. now subst.
  - intros H. apply Bool.eqb_prop in H. now subst.
  - intros H. apply andb_true_iff in H as [H He]. apply andb_true_iff in H as [Hs Hm].
    apply Bool.eqb_prop in Hs. apply Pos.eqb_eq in Hm. apply Z.eqb_eq in He. now subst.
Qed.

Lemma extends_typeName (a a' : any) : extends a a' = true -> typeName a = typeName a'.
Proof. destruct a, a'; simpl; try discriminate; reflexivity. Qed.

Lemma extends_scalar (a a' : any) :
  is_slice a = false -> is_map a = false -> extends a a' = true -> a' = a.
Proof.
  intros Hs Hm. destruct a, a'; simpl in *; try discriminate; intros H.
  - reflexivity.
  - apply Bool.eqb_prop in H. now subst.
  - apply spec_float_same_eq in H. now subst.
  - apply String.eqb_eq in H. now subst.
Qed.

Lemma pointwise_length (f : any -> any -> bool) (l l' : list any) :
  pointwise f l l' = true -> len l = len l'.
Proof.
  revert l'. induction l as [ | x r IH ]; intros [ | x' r' ]; simpl; try discriminate.
  - reflexivity.
  - intros H. apply andb_true_iff in H as [_ H]. unfold len in *. simpl. f_equal. now apply IH.
Qed.

Lemma pointwise_In (f : any -> any -> bool) (l l' : list any) (x : any) :
  pointwise f l l' = true -> In x l -> exists x', In x' l' /\ f x x' = true.
Proof.
  revert l'. induction l as [ | y r IH ]; intros [ | y' r' ]; simpl; try discriminate.
  - contradiction.
  - intros H Hin. apply andb_true_iff in H as [Hf H].
    destruct Hin as [-> | Hin].
    + exists y'. split; [ now left | exact Hf ].
    + destruct (IH r' H Hin) as [x' [Hin' Hx]]. exists x'. split; [ now right | exact Hx ].
Qed.

Ltac scalar_extension :=
  match goal with
  | Hx : extends ?a _ = true |- _ =>
      rewrite (extends_scalar a _ eq_refl eq_refl Hx)
  end.

Lemma value_matches_extends (value : any) :
  forall otherValue otherValue',
    value_matches value otherValue false = Ret true ->
    extends otherValue otherValue' = true ->
    value_matches value otherValue' false = Ret true.
Proof.
  induction value as [ | b | f | s | items IH | fields IH ] using any_ind;
    intros otherValue otherValue' H Hext.
  - destruct otherValue; try discriminate. now scalar_extension.
  - destruct otherValue; try discriminate. now scalar_extension.
  - destruct otherValue; try discriminate. now scalar_extension.
  - destruct otherValue; try discriminate. now scalar_extension.
  - destruct otherValue as [ | | | | otherItems | ]; try discriminate.
    destruct otherValue' as [ | | | | otherItems' | ]; try discriminate.
    simpl in Hext. rewrite value_matches_slice in *.
    apply slices_match_true in H as [Hlen H]. apply slices_match_true.
    split; [ rewrite Hlen; now apply (pointwise_length extends) | ].
    intros item Hin. destruct (H item Hin) as [o [Ho Hc]].
    destruct (pointwise_In _ _ _ _ Hext Ho) as [o' [Ho' Hoo']].
    exists o'. split; [ exact Ho' | ].
    apply counterpart_item_equals. apply counterpart_item_equals in Hc.
    pose proof (item_equals_true_inv _ _ _ Hc) as [Hs [Hk [Hm Hsc]]].
    apply String.eqb_eq in Hk.
    unfold item_equals. rewrite <- (extends_typeName _ _ Hoo'), Hk, String.eqb_refl. simpl.
    rewrite Forall_forall in IH.
    destruct item; try discriminate;
      try (destruct o; try discriminate; scalar_extension; apply Hsc; reflexivity).
    apply (IH _ Hin o o'); [ now apply Hm | exact Hoo' ].
  - destruct otherValue as [ | | | | | otherJsonMap ]; try discriminate.
    destruct otherValue' as [ | | | | | otherJsonMap' ]; try discriminate.
    simpl in Hext. rewrite forallb_forall in Hext.
    rewrite value_matches_map in *.
    rewrite jsonStringMatches_partial_true in *.
    intros key value Hin. destruct (H _ _ Hin) as [ov [Hget Hm]].
    specialize (Hext _ (map_get_In _ _ _ Hget)). simpl in Hext.
    destruct (map_get key otherJsonMap') as [ ov' | ]; [ | discriminate ].
    exists ov'. split; [ reflexivity | ].
    rewrite Forall_forall in IH. apply (IH _ Hin ov ov' Hm Hext).
Qed.

(** ** The order of the entries of a map

    Go does not fix the order in which [range] visits a map.  The result
    of [jsonStringMatches] does not depend on the order of the entries of
    the actual map, and it does not depend on the order of the entries of
    the expected map as long as no comparison panics. *)

Lemma distinct_NoDup (keys : list string) : distinct keys = true <-> NoDup keys.
Proof.
  induction keys as [ | k rest IH ]; simpl.
  - split; [ constructor | reflexivity ].
  - rewrite andb_true_iff, negb_true_iff, IH. split.
    + intros [Hfresh Hnd]. constructor; [ | exact Hnd ].
      intros Hin. apply existsb_eqb_In in Hin. congruence.
    + intros H. inversion H as [ | ? ? Hfresh Hnd ]. split; [ | exact Hnd ].
      destruct (existsb (String.eqb k) rest) eqn:He; [ | reflexivity ].
      apply existsb_eqb_In in He. contradiction.
Qed.

Lemma map_get_permutation (m m' : object) (key : string) :
  Permutation m m' -> distinct (map fst m) = true -> map_get key m = map_get key m'.
Proof.
  intros Hp Hd.
  assert (Hd' : distinct (map fst m') = true).
  { apply distinct_NoDup. apply distinct_NoDup in Hd.
    apply (Permutation_NoDup (Permutation_map fst Hp) Hd). }
  destruct (map_get key m) as [ v | ] eqn:Hget.
  - symmetry. apply (map_get_distinct _ _ _ Hd').
    apply (Permutation_in _ Hp). now apply map_get_In.
  - destruct (map_get key m') as [ v' | ] eqn:Hget'; [ | reflexivity ].
    apply map_get_In in Hget'. apply (Permutation_in _ (Permutation_sym Hp)) in Hget'.
    rewrite (map_get_distinct _ _ _ Hd Hget') in Hget. discriminate.
Qed.

Lemma range_fields_ext (body body' : string -> any -> result bool) (jsonMap : object) :
  (forall key value, body key value = body' key value) ->
  range_fields body jsonMap = range_fields body' jsonMap.
Proof.
  intros Hext. induction jsonMap as [ | [key value] rest IH ]; simpl; [ reflexivity | ].
  now rewrite Hext, IH.
Qed.

Lemma range_fields_forallb (body : string -> any -> result bool) (jsonMap : object) :
  Forall (fun kv => returns (body (fst kv) (snd kv))) jsonMap ->
  range_fields body jsonMap
  = Ret (forallb (fun kv => match body (fst kv) (snd kv) with
                            | Ret ok => ok
                            | Panic _ => false
                            end) jsonMap).
Proof.
  induction 1 as [ | [key value] rest Hhd _ IH ]; simpl; [ reflexivity | ].
  simpl in Hhd. destruct (body key value) as [ [ | ] | e ]; simpl;
    [ exact IH | reflexivity | contradiction ].
Qed.

Lemma forallb_permutation {A : Type} (f : A -> bool) (l l' : list A) :
  Permutation l l' -> forallb f l = forallb f l'.
Proof.
  induction 1 as [ | x l l' _ IH | x y l | l l' l'' _ IH1 _ IH2 ]; simpl.
  - reflexivity.
  - now rewrite IH.
  - now rewrite !andb_assoc, (andb_comm (f y) (f x)).
  - now rewrite IH1.
Qed.

Lemma jsonStringMatches_order_actual (jsonMap otherJsonMap otherJsonMap' : object)
  (mustBeEqual : bool) :
  Permutation otherJsonMap otherJsonMap' ->
  distinct (map fst otherJsonMap) = true ->
  jsonStringMatches jsonMap otherJsonMap mustBeEqual
  = jsonStringMatches jsonMap otherJsonMap' mustBeEqual.
Proof.
  intros Hp Hd. rewrite !jsonStringMatches_unfold.
  unfold len. rewrite (Permutation_length Hp).
  destruct (mustBeEqual && negb (List.length jsonMap =? List.length otherJsonMap')%nat);
    [ reflexivity | ].
  apply range_fields_ext. intros key value. unfold field_matches.
  now rewrite (map_get_permutation _ _ key Hp Hd).
Qed.

Lemma jsonStringMatches_order_expected (jsonMap jsonMap' otherJsonMap : object)
  (mustBeEqual : bool) :
  Permutation jsonMap jsonMap' ->
  nested_slice_free (VMap jsonMap) = true ->
  jsonStringMatches jsonMap otherJsonMap mustBeEqual
  = jsonStringMatches jsonMap' otherJsonMap mustBeEqual.
Proof.
  intros Hp Hfree. rewrite !jsonStringMatches_unfold.
  unfold len. rewrite (Permutation_length Hp).
  destruct (mustBeEqual && negb (List.length jsonMap' =? List.length otherJsonMap)%nat);
    [ reflexivity | ].
  assert (Hret : Forall (fun kv => returns (field_matches otherJsonMap mustBeEqual
                                              (fst kv) (snd kv))) jsonMap).
  { simpl in Hfree. rewrite forallb_forall in Hfree. apply Forall_forall.
    intros [key value] Hin. simpl. unfold field_matches.
    destruct (map_get key otherJsonMap); [ | exact I ].
    apply value_matches_returns. apply (Hfree _ Hin). }
  rewrite (range_fields_forallb _ _ Hret).
  rewrite (range_fields_forallb _ jsonMap').
  - f_equal. now apply forallb_permutation.
  - rewrite Forall_forall in *. intros kv Hin. apply Hret.
    apply (Permutation_in _ (Permutation_sym Hp) Hin).
Qed.

(** ** Field counts in exact mode *)

Lemma jsonStringMatches_exact_len (jsonMap otherJsonMap : object) :
  len jsonMap <> len otherJsonMap ->
  jsonStringMatches jsonMap otherJsonMap true = Ret false.
Proof.
  intros H. rewrite jsonStringMatches_unfold.
  apply Nat.eqb_neq in H. rewrite H. reflexivity.
Qed.

Lemma jsonStringMatches_exact_object_at (path : list string) :
  forall (jsonMap otherJsonMap sub : object),
    jsonStringMatches jsonMap otherJsonMap true = Ret true ->
    object_at path jsonMap = Some sub ->
    exists otherSub, object_at path otherJsonMap = Some otherSub
                     /\ len sub = len otherSub.
Proof.
  induction path as [ | key rest IH ]; intros jsonMap otherJsonMap sub H Hat; simpl in *.
  - injection Hat as <-. exists otherJsonMap. split; [ reflexivity | ].
    destruct (Nat.eq_dec (len jsonMap) (len otherJsonMap)) as [Heq | Hne]; [ exact Heq | ].
    rewrite (jsonStringMatches_exact_len _ _ Hne) in H. discriminate.
  - destruct (map_get key jsonMap) as [ [ | | | | | inner ] | ] eqn:Hget; try discriminate.
    rewrite jsonStringMatches_unfold in H.
    destruct (true && negb (len jsonMap =? len otherJsonMap)%nat); [ discriminate | ].
    rewrite range_fields_true, Forall_forall in H.
    specialize (H _ (map_get_In _ _ _ Hget)). simpl in H. unfold field_matches in H.
    destruct (map_get key otherJsonMap) as [ [ | | | | | otherInner ] | ]; try discriminate.
    rewrite value_matches_map in H. apply (IH inner otherInner sub H Hat).
Qed.

(** ** Reflexivity, away from arrays inside arrays *)

Lemma SFeqb_refl (f : spec_float) : is_nan f = false -> SFeqb f f = true.
Proof.
  unfold SFeqb. destruct f as [ s | s | | s m e ]; simpl; try discriminate; intros _.
  - reflexivity.
  - destruct s; reflexivity.
  - destruct s; rewrite Z.compare_refl, Pos.compare_cont_refl; reflexivity.
Qed.

Lemma value_matches_refl (value : any) :
  decoded value = true -> nested_slice_free value = true ->
  forall mustBeEqual, value_matches value value mustBeEqual = Ret true.
Proof.
  induction value as [ | b | f | s | items IH | fields IH ] using any_ind;
    intros Hdec Hfree mustBeEqual.
  - reflexivity.
  - simpl. now rewrite Bool.eqb_reflx.
  - simpl in *. apply negb_true_iff in Hdec. now rewrite SFeqb_refl.
  - simpl. now rewrite !String.eqb_refl.
  - rewrite value_matches_slice. apply slices_match_true.
    split; [ reflexivity | ]. intros item Hin. exists item. split; [ exact Hin | ].
    simpl in Hdec, Hfree. rewrite forallb_forall in Hdec, Hfree. rewrite Forall_forall in IH.
    specialize (Hfree _ Hin). apply andb_true_iff in Hfree as [Hns Hfree].
    specialize (IH _ Hin (Hdec _ Hin) Hfree mustBeEqual).
    split; [ reflexivity | ].
    destruct item; try discriminate; try exact IH; simpl in IH;
      destruct (iface_eq _ _) as [ same | ]; simpl in *; congruence.
  - rewrite value_matches_map, jsonStringMatches_unfold.
    rewrite Nat.eqb_refl, andb_false_r.
    rewrite range_fields_true, Forall_forall. intros [key value] Hin. simpl.
    simpl in Hdec, Hfree. apply andb_true_iff in Hdec as [Hkeys Hdec].
    rewrite forallb_forall in Hdec, Hfree. rewrite Forall_forall in IH.
    unfold field_matches. rewrite (map_get_distinct _ _ _ Hkeys Hin).
    apply (IH _ Hin (Hdec _ Hin) (Hfree _ Hin)).
Qed.

Lemma jsonStringMatches_refl (jsonMap : object) (mustBeEqual : bool) :
  decoded (VMap jsonMap) = true -> nested_slice_free (VMap jsonMap) = true ->
  jsonStringMatches jsonMap jsonMap mustBeEqual = Ret true.
Proof.
  intros Hdec Hfree. rewrite <- value_matches_map. now apply value_matches_refl.
Qed.

(* ================================================================= *)
(** * The claims *)

(** C1, as stated, fails: it is not so that any field of the actual
    document that the expected document has nowhere makes exact mode return
    false.  The second element of the actual array of [doc_b1_b1c2] has the
    extra field [c], and exact mode returns true, because both expected
    elements find their counterpart in the first actual element. *)
Lemma exact_accepts_extra_field_in_array_element :
  ~ (forall (E A : object) (k : string),
        has_field k (VMap A) = true ->
        has_field k (VMap E) = false ->
        jsonStringMatches E A true = Ret false).
Proof.
  intros H.
  specialize (H doc_twice_b1 doc_b1_b1c2 "c" eq_refl eq_refl).
  vm_compute in H. discriminate.
Qed.

(** C1 (amended).  For all JSON objects [E] and [A]:
    - partial mode succeeds when every field of [E] is present in [A] with
      a matching value, whatever else [A] holds;
    - a partial match survives the addition of fields to [A] at any object
      level (array elements included);
    - exact mode returns false as soon as the two objects it compares
      differ in their field counts; [E] and [A] stand for the two objects
      of any call, so this holds at every recursion level;
    - hence exact mode does not succeed when the counts differ at an
      object reached from the top through object-valued fields, and it
      returns false there when [E] has no array inside an array;
    - [matches({a:1}, {a:1,b:2})] is true and [equals({a:1}, {a:1,b:2})]
      is false;
    - an extra field inside an array element does not by itself make exact
      mode fail: [equals({a:[{b:1},{b:1}]}, {a:[{b:1},{b:1,c:2}]})] is
      true. *)
Theorem partial_ignores_extra_fields_exact_counts_them (E A : object) :
  ((forall key value, In (key, value) E ->
      exists otherValue, map_get key A = Some otherValue
                         /\ value_matches value otherValue false = Ret true) ->
   jsonStringMatches E A false = Ret true)
  /\ (forall A', jsonStringMatches E A false = Ret true ->
                 extends (VMap A) (VMap A') = true ->
                 jsonStringMatches E A' false = Ret true)
  /\ (len E <> len A -> jsonStringMatches E A true = Ret false)
  /\ (forall path E' A',
        object_at path E = Some E' -> object_at path A = Some A' ->
        len E' <> len A' ->
        jsonStringMatches E A true <> Ret true
        /\ (nested_slice_free (VMap E) = true ->
            jsonStringMatches E A true = Ret false))
  /\ jsonStringMatches doc_a1 doc_a1_b2 false = Ret true
  /\ jsonStringMatches doc_a1 doc_a1_b2 true = Ret false
  /\ jsonStringMatches doc_twice_b1 doc_b1_b1c2 true = Ret true.
Proof.
  split; [ | split; [ | split; [ | split ] ] ].
  - apply jsonStringMatches_partial_true.
  - intros A' H Hext. rewrite <- value_matches_map in *.
    now apply (value_matches_extends _ (VMap A)).
  - apply jsonStringMatches_exact_len.
  - intros path E' A' HE HA Hlen.
    assert (Hnot : jsonStringMatches E A true <> Ret true).
    { intros H.
      destruct (jsonStringMatches_exact_object_at path E A E' H HE) as [A'' [HA' Heq]].
      rewrite HA in HA'. injection HA' as <-. contradiction. }
    split; [ exact Hnot | ].
    intros Hfree. pose proof (jsonStringMatches_returns E A true Hfree) as Hret.
    destruct (jsonStringMatches E A true) as [ [ | ] | e ];
      [ now contradiction Hnot | reflexivity | contradiction ].
  - repeat split; vm_compute; reflexivity.
Qed.

Lemma partial_ignores_extra_fields_exact_counts_them_witness :
  jsonStringMatches doc_nested doc_nested_wide false = Ret true
  /\ jsonStringMatches doc_nested doc_nested_wide true = Ret false
  /\ jsonStringMatches doc_nested doc_nested_deep true = Ret false.
Proof.
  split; [ | split ].
  - destruct (partial_ignores_extra_fields_exact_counts_them doc_nested doc_nested)
      as [Hsuff [Hext _]].
    apply Hext; [ | reflexivity ].
    apply Hsuff. intros key value [Heq | []]. injection Heq as <- <-.
    eexists. split; reflexivity.
  - destruct (partial_ignores_extra_fields_exact_counts_them doc_nested doc_nested_wide)
      as [_ [_ [Hlen _]]].
    apply Hlen. vm_compute. discriminate.
  - destruct (partial_ignores_extra_fields_exact_counts_them doc_nested doc_nested_deep)
      as [_ [_ [_ [Hat _]]]].
    apply (Hat ["a"] [("x", num 1)] [("x", num 1); ("y", num 2)]);
      [ reflexivity | reflexivity | vm_compute; discriminate | reflexivity ].
Defined.

(** C2.  When a field of the expected object and the field of the same
    name of the actual object are both arrays of different lengths, the
    iteration for that field is a [return false], in partial mode and in
    exact mode alike; so the comparison of the two objects does not
    succeed, and it returns false whenever it returns (it does whenever the
    expected object has no array inside an array).
    [matches({a:[1]}, {a:[1,2]})] is false. *)
Theorem arrays_of_different_length_never_match
  (E A : object) (key : string) (items otherItems : list any) (mustBeEqual : bool) :
  In (key, VSlice items) E ->
  map_get key A = Some (VSlice otherItems) ->
  len items <> len otherItems ->
  field_matches A mustBeEqual key (VSlice items) = Ret false
  /\ jsonStringMatches E A mustBeEqual <> Ret true
  /\ (returns (jsonStringMatches E A mustBeEqual) ->
      jsonStringMatches E A mustBeEqual = Ret false)
  /\ (nested_slice_free (VMap E) = true ->
      jsonStringMatches E A mustBeEqual = Ret false)
  /\ jsonStringMatches [("a", VSlice [num 1])] [("a", VSlice [num 1; num 2])] false
     = Ret false.
Proof.
  intros Hin Hget Hlen.
  assert (Hfield : field_matches A mustBeEqual key (VSlice items) = Ret false).
  { unfold field_matches. rewrite Hget, value_matches_slice. unfold slices_match.
    apply Nat.eqb_neq in Hlen. now rewrite Hlen. }
  assert (Hnot : jsonStringMatches E A mustBeEqual <> Ret true).
  { rewrite jsonStringMatches_unfold.
    destruct (mustBeEqual && negb (len E =? len A)%nat); [ discriminate | ].
    rewrite range_fields_true, Forall_forall. intros H.
    specialize (H _ Hin). simpl in H. congruence. }
  assert (Hret : returns (jsonStringMatches E A mustBeEqual) ->
                 jsonStringMatches E A mustBeEqual = Ret false).
  { destruct (jsonStringMatches E A mustBeEqual) as [ [ | ] | e ]; simpl;
      [ now contradiction Hnot | reflexivity | contradiction ]. }
  repeat split; try assumption.
  intros Hfree. apply Hret. now apply jsonStringMatches_returns.
Qed.

Lemma arrays_of_different_length_never_match_witness :
  jsonStringMatches [("n", num 7); ("a", VSlice [num 1])]
                    [("a", VSlice [num 1; num 2]); ("n", num 7)] true = Ret false.
Proof.
  destruct (arrays_of_different_length_never_match
              [("n", num 7); ("a", VSlice [num 1])]
              [("a", VSlice [num 1; num 2]); ("n", num 7)]
              "a" [num 1] [num 1; num 2] true) as [_ [_ [_ [Hfree _]]]].
  - right. left. reflexivity.
  - reflexivity.
  - vm_compute. discriminate.
  - apply Hfree. reflexivity.
Defined.

(** C3.  For two arrays of equal length the array rule succeeds exactly
    when every element of the expected array has a counterpart among the
    elements of the actual array: an element of the same JSON kind that
    matches it, by [jsonStringMatches] for objects and by [==] otherwise.
    The order of the elements plays no part
    ([matches({a:[1,2]}, {a:[2,1]})] is true), and one actual element may
    serve several expected ones ([matches({a:[1,1]}, {a:[1,2]})] is true). *)
Theorem array_rule_is_unordered_and_non_reserving
  (items otherItems : list any) (mustBeEqual : bool) :
  len items = len otherItems ->
  (value_matches (VSlice items) (VSlice otherItems) mustBeEqual = Ret true
   <-> forall item, In item items ->
         exists otherItem, In otherItem otherItems
                           /\ counterpart mustBeEqual item otherItem)
  /\ jsonStringMatches [("a", VSlice [num 1; num 2])] [("a", VSlice [num 2; num 1])] false
     = Ret true
  /\ jsonStringMatches [("a", VSlice [num 1; num 1])] [("a", VSlice [num 1; num 2])] false
     = Ret true.
Proof.
  intros Hlen. split; [ | split; vm_compute; reflexivity ].
  rewrite value_matches_slice, slices_match_true. split.
  - intros [_ H]. exact H.
  - intros H. split; [ exact Hlen | exact H ].
Qed.

Lemma array_rule_is_unordered_and_non_reserving_witness :
  value_matches (VSlice [VString "x"; VMap doc_a1; VString "x"])
                (VSlice [VMap doc_a1_b2; num 3; VString "x"]) false = Ret true.
Proof.
  destruct (array_rule_is_unordered_and_non_reserving
              [VString "x"; VMap doc_a1; VString "x"]
              [VMap doc_a1_b2; num 3; VString "x"] false eq_refl) as [[_ Hrule] _].
  apply Hrule.
  intros item [<- | [<- | [<- | []]]].
  - exists (VString "x"). split; [ right; right; left; reflexivity | ].
    split; reflexivity.
  - exists (VMap doc_a1_b2). split; [ left; reflexivity | ].
    split; reflexivity.
  - exists (VString "x"). split; [ right; right; left; reflexivity | ].
    split; reflexivity.
Defined.

Lemma comparator_panics_at_nested_array (mustBeEqual : bool) :
  jsonStringMatches [("a", VSlice [VSlice [num 1]])]
                    [("a", VSlice [VSlice [num 1]])] mustBeEqual
  = Panic (UncomparableType "[]interface {}").
Proof. destruct mustBeEqual; vm_compute; reflexivity. Qed.

(** C4 is contradicted by the code: on an array that is an element of an
    array the comparator does not return a boolean.  The elements reach
    the [default] branch, where [item == otherItem] compares two
    interface values of dynamic type [[]interface {}], and that panics.
    Here are [equals({a:[[1]]}, {a:[[1]]})] and
    [matches({a:[[1]]}, {a:[[1]]})]. *)
Theorem comparator_panics_on_array_inside_array (mustBeEqual : bool) :
  ~ returns (jsonStringMatches [("a", VSlice [VSlice [num 1]])]
                               [("a", VSlice [VSlice [num 1]])] mustBeEqual)
  /\ jsonStringMatches [("a", VSlice [VSlice [num 1]])]
                       [("a", VSlice [VSlice [num 1]])] mustBeEqual
     = Panic (UncomparableType "[]interface {}").
Proof.
  rewrite comparator_panics_at_nested_array. split; [ intros [] | reflexivity ].
Qed.

(** ** The text level *)

Section Texts.

Variable json_decode : string -> option any.

Lemma jsonStringMatches_nil_left (otherJsonMap : object) (mustBeEqual : bool) :
  jsonStringMatches [] otherJsonMap mustBeEqual
  = Ret (negb mustBeEqual || (len otherJsonMap =? 0)%nat).
Proof.
  rewrite jsonStringMatches_unfold.
  destruct mustBeEqual, otherJsonMap; reflexivity.
Qed.

Lemma jsonStringMatches_nil_right (jsonMap : object) (mustBeEqual : bool) :
  jsonStringMatches jsonMap [] mustBeEqual = Ret (len jsonMap =? 0)%nat.
Proof.
  rewrite jsonStringMatches_unfold.
  destruct mustBeEqual, jsonMap as [ | [key value] rest ]; reflexivity.
Qed.

Lemma entries_malformed (data : JsonString) :
  json_decode data = None -> entries json_decode data = [].
Proof. unfold entries, Unmarshal_new_map. now intros ->. Qed.

Lemma entries_not_object (data : JsonString) (v : any) :
  json_decode data = Some v -> is_map v = false -> entries json_decode data = [].
Proof.
  unfold entries, Unmarshal_new_map. intros -> H. destruct v; try reflexivity; discriminate.
Qed.

Lemma entries_object (data : JsonString) (fields : object) :
  json_decode data = Some (VMap fields) -> entries json_decode data = fields.
Proof. unfold entries, Unmarshal_new_map. now intros ->. Qed.

(** A side without entries: what [Matches] and [Equals] return. *)
Lemma side_without_entries (E A : JsonString) :
  entries json_decode E = [] ->
  Matches json_decode E A = Ret true
  /\ Equals json_decode E A = Ret (len (entries json_decode A) =? 0)%nat
  /\ Matches json_decode A E = Ret (len (entries json_decode A) =? 0)%nat
  /\ Equals json_decode A E = Ret (len (entries json_decode A) =? 0)%nat.
Proof.
  unfold Matches, Equals. fold (entries json_decode E). fold (entries json_decode A). intros ->.
  rewrite !jsonStringMatches_nil_left, !jsonStringMatches_nil_right.
  repeat split.
Qed.

(** Two sides without entries cannot be told apart. *)
Lemma sides_without_entries_agree (E E' A : JsonString) :
  entries json_decode E = [] -> entries json_decode E' = [] ->
  Matches json_decode E A = Matches json_decode E' A
  /\ Equals json_decode E A = Equals json_decode E' A
  /\ Matches json_decode A E = Matches json_decode A E'
  /\ Equals json_decode A E = Equals json_decode A E'.
Proof.
  unfold Matches, Equals. fold (entries json_decode E). fold (entries json_decode E'). intros -> ->.
  repeat split.
Qed.

Lemma Equals_Matches_refl (X : JsonString) (fields : object) :
  json_decode X = Some (VMap fields) ->
  decoded (VMap fields) = true -> nested_slice_free (VMap fields) = true ->
  Equals json_decode X X = Ret true /\ Matches json_decode X X = Ret true.
Proof.
  intros HX Hdec Hfree. unfold Equals, Matches. fold (entries json_decode X).
  rewrite (entries_object _ _ HX). split; now apply jsonStringMatches_refl.
Qed.

End Texts.

(** C5.  For all JSON texts [E] and [A], when [Equals(E, A)] returns true,
    [Matches(E, A)] returns true.  Not conversely: on [{a:1}] and
    [{a:1,b:2}], [Matches] returns true and [Equals] false. *)
Theorem Equals_implies_Matches
  (json_decode : string -> option any) (E A : JsonString) :
  (Equals json_decode E A = Ret true -> Matches json_decode E A = Ret true)
  /\ Matches Sample.decode text_a1 text_a1_b2 = Ret true
  /\ Equals Sample.decode text_a1 text_a1_b2 = Ret false.
Proof.
  split; [ | split; vm_compute; reflexivity ].
  unfold Equals, Matches. apply jsonStringMatches_exact_partial.
Qed.

Lemma Equals_implies_Matches_witness :
  Matches Sample.decode text_a1_b2 text_a1_b2 = Ret true.
Proof.
  destruct (Equals_implies_Matches Sample.decode text_a1_b2 text_a1_b2) as [H _].
  apply H. vm_compute. reflexivity.
Defined.

(** C6 is contradicted by the code: on a valid JSON object that holds an
    array inside an array, [Equals(X, X)] and [Matches(X, X)] panic where
    the claim has them return true. *)
Theorem Equals_and_Matches_not_reflexive
  (json_decode : string -> option any) (X : JsonString) :
  json_decode X = Some (VMap [("a", VSlice [VSlice [num 1]])]) ->
  Equals json_decode X X = Panic (UncomparableType "[]interface {}")
  /\ Matches json_decode X X = Panic (UncomparableType "[]interface {}").
Proof.
  intros HX. unfold Equals, Matches, Unmarshal_new_map. rewrite HX. simpl fst.
  split; apply comparator_panics_at_nested_array.
Qed.

Lemma Equals_and_Matches_not_reflexive_witness :
  Equals Sample.decode text_nested_array text_nested_array
  = Panic (UncomparableType "[]interface {}").
Proof.
  apply (Equals_and_Matches_not_reflexive Sample.decode text_nested_array).
  vm_compute. reflexivity.
Defined.

(** C9.  A content [E] that is not valid JSON is decoded into a map
    without entries and no comparison that involves it panics:
    [Matches(E, A)] returns true for every [A]; [Equals(E, A)],
    [Matches(A, E)] and [Equals(A, E)] return whether [A] has no entries
    either, so two contents that both fail to decode compare as equal;
    in all four calls [E] cannot be told from a text that decodes to
    the empty object.  When the content arrives through [UnmarshalJSON],
    the failure of [json.Compact] is not returned as an error: the stored
    content is the empty text, which [MarshalJSON] writes as the empty
    object. *)
Theorem malformed_content_is_the_empty_object
  (json_decode : string -> option any) (json_Compact : string -> option string)
  (E A : JsonString) :
  json_decode E = None ->
  entries json_decode E = []
  /\ Matches json_decode E A = Ret true
  /\ Equals json_decode E A = Ret (len (entries json_decode A) =? 0)%nat
  /\ Matches json_decode A E = Ret (len (entries json_decode A) =? 0)%nat
  /\ Equals json_decode A E = Ret (len (entries json_decode A) =? 0)%nat
  /\ (json_decode A = None -> Equals json_decode E A = Ret true)
  /\ (forall empty : JsonString,
        json_decode empty = Some (VMap []) ->
        Matches json_decode E A = Matches json_decode empty A
        /\ Equals json_decode E A = Equals json_decode empty A
        /\ Matches json_decode A E = Matches json_decode A empty
        /\ Equals json_decode A E = Equals json_decode A empty)
  /\ (json_Compact E = None ->
      JsonString_UnmarshalJSON json_Compact E = ("", None)
      /\ MarshalJSON (fst (JsonString_UnmarshalJSON json_Compact E)) = ("{}", None)
      /\ (json_decode "" = None ->
          Matches json_decode (fst (JsonString_UnmarshalJSON json_Compact E)) A
          = Ret true)).
Proof.
  intros HE. pose proof (entries_malformed json_decode E HE) as Hnil.
  destruct (side_without_entries json_decode E A Hnil) as [H1 [H2 [H3 H4]]].
  repeat (split; [ assumption | ]).
  split; [ | split ].
  - intros HA. rewrite H2, (entries_malformed json_decode A HA). reflexivity.
  - intros empty Hempty. apply sides_without_entries_agree; [ exact Hnil | ].
    now apply entries_object.
  - intros HC. unfold JsonString_UnmarshalJSON. rewrite HC.
    split; [ reflexivity | split; [ reflexivity | ] ].
    intros Hempty. simpl fst.
    apply (side_without_entries json_decode "" A (entries_malformed json_decode "" Hempty)).
Qed.

Lemma malformed_content_is_the_empty_object_witness :
  Matches Sample.decode text_truncated text_a1 = Ret true
  /\ Equals Sample.decode text_truncated "" = Ret true
  /\ Equals Sample.decode text_truncated text_a1 = Equals Sample.decode "{}" text_a1
  /\ JsonString_UnmarshalJSON Sample.Compact text_truncated = ("", None)
  /\ Matches Sample.decode
       (fst (JsonString_UnmarshalJSON Sample.Compact text_truncated)) text_a1 = Ret true.
Proof.
  split; [ | split; [ | split; [ | split ] ] ].
  - destruct (malformed_content_is_the_empty_object
                Sample.decode Sample.Compact text_truncated text_a1)
      as [_ [H _]]; [ reflexivity | exact H ].
  - destruct (malformed_content_is_the_empty_object
                Sample.decode Sample.Compact text_truncated "")
      as [_ [_ [_ [_ [_ [H _]]]]]]; [ reflexivity | apply H; reflexivity ].
  - destruct (malformed_content_is_the_empty_object
                Sample.decode Sample.Compact text_truncated text_a1)
      as [_ [_ [_ [_ [_ [_ [H _]]]]]]]; [ reflexivity | ].
    destruct (H "{}" eq_refl) as [_ [Heq _]]. exact Heq.
  - destruct (malformed_content_is_the_empty_object
                Sample.decode Sample.Compact text_truncated text_a1)
      as [_ [_ [_ [_ [_ [_ [_ H]]]]]]]; [ reflexivity | ].
    destruct (H eq_refl) as [Hstored _]. exact Hstored.
  - destruct (malformed_content_is_the_empty_object
                Sample.decode Sample.Compact text_truncated text_a1)
      as [_ [_ [_ [_ [_ [_ [_ H]]]]]]]; [ reflexivity | ].
    destruct (H eq_refl) as [_ [_ Hlater]]. apply Hlater. reflexivity.
Defined.

(** C10.  A text [E] that is valid JSON but not an object (an array, a
    string, a number, a boolean or null) is decoded into a map without
    entries.  [Matches(E, A)] returns true for every [A].  [Equals(E, A)]
    returns true exactly when the map decoded from [A] has no entries
    either: it does for every [A] that is not an object and for the empty
    object, and it does not for an object that has a field.  In all four
    calls [E] cannot be told from a text that decodes to the empty
    object. *)
Theorem non_object_document_is_the_empty_object
  (json_decode : string -> option any) (E A : JsonString) (v : any) :
  json_decode E = Some v -> is_map v = false ->
  Matches json_decode E A = Ret true
  /\ (Equals json_decode E A = Ret true <-> entries json_decode A = [])
  /\ returns (Equals json_decode E A)
  /\ (forall w, json_decode A = Some w -> is_map w = false ->
                Equals json_decode E A = Ret true)
  /\ (json_decode A = Some (VMap []) -> Equals json_decode E A = Ret true)
  /\ (forall field fields, json_decode A = Some (VMap (field :: fields)) ->
                           Equals json_decode E A = Ret false)
  /\ (forall empty : JsonString,
        json_decode empty = Some (VMap []) ->
        Matches json_decode E A = Matches json_decode empty A
        /\ Equals json_decode E A = Equals json_decode empty A
        /\ Matches json_decode A E = Matches json_decode A empty
        /\ Equals json_decode A E = Equals json_decode A empty).
Proof.
  intros HE Hv. pose proof (entries_not_object json_decode E v HE Hv) as Hnil.
  destruct (side_without_entries json_decode E A Hnil) as [H1 [H2 _]].
  split; [ exact H1 | ].
  split; [ | split; [ | split; [ | split; [ | split ] ] ] ].
  1-5: rewrite H2.
  - destruct (entries json_decode A) as [ | field fields ]; simpl.
    + split; reflexivity.
    + split; discriminate.
  - exact I.
  - intros w HA Hw. now rewrite (entries_not_object json_decode A w HA Hw).
  - intros HA. now rewrite (entries_object json_decode A [] HA).
  - intros field fields HA. now rewrite (entries_object json_decode A _ HA).
  - intros empty Hempty. apply sides_without_entries_agree; [ exact Hnil | ].
    now apply entries_object.
Qed.

Lemma non_object_document_is_the_empty_object_witness :
  Matches Sample.decode text_array text_a1 = Ret true
  /\ Equals Sample.decode text_array text_a1 = Ret false
  /\ Equals Sample.decode text_array "null" = Ret true.
Proof.
  split; [ | split ].
  - destruct (non_object_document_is_the_empty_object
                Sample.decode text_array text_a1 (VSlice [num 1; num 2]))
      as [H _]; [ reflexivity | reflexivity | exact H ].
  - destruct (non_object_document_is_the_empty_object
                Sample.decode text_array text_a1 (VSlice [num 1; num 2]))
      as [_ [_ [_ [_ [_ [H _]]]]]]; [ reflexivity | reflexivity | ].
    apply (H ("a", num 1) []). reflexivity.
  - destruct (non_object_document_is_the_empty_object
                Sample.decode text_array "null" (VSlice [num 1; num 2]))
      as [_ [_ [_ [H _]]]]; [ reflexivity | reflexivity | ].
    apply (H VNil); reflexivity.
Defined.

(** ** [StubType] and [MarshalJSON] *)

Section StubTypes.

Variable json_decode : string -> option any.

(** A type tag that is present and empty is replaced by [mock]. *)
Lemma empty_type_defaults_to_mock (data : string) :
  json_decode data = Some (VString "") ->
  StubType_UnmarshalJSON json_decode data = Ret ("mock", None)
  /\ Stub_Type_decoded json_decode (Some data) = Ret "mock".
Proof.
  intros H. unfold Stub_Type_decoded, StubType_UnmarshalJSON, Unmarshal_new_string_ptr.
  rewrite H. split; reflexivity.
Qed.

(** A type tag that is present and not empty is kept. *)
Lemma given_type_is_kept (data : string) (s : string) :
  json_decode data = Some (VString s) -> s <> "" ->
  Stub_Type_decoded json_decode (Some data) = Ret s.
Proof.
  intros H Hs. unfold Stub_Type_decoded, StubType_UnmarshalJSON, Unmarshal_new_string_ptr.
  rewrite H. simpl. apply String.eqb_neq in Hs. now rewrite Hs.
Qed.

(** A value that is valid JSON and neither a string nor null counts as
    empty. *)
Lemma other_kind_defaults_to_mock (data : string) (v : any) :
  json_decode data = Some v -> v <> VNil -> (forall s, v <> VString s) ->
  Stub_Type_decoded json_decode (Some data) = Ret "mock".
Proof.
  intros H Hnil Hstr.
  unfold Stub_Type_decoded, StubType_UnmarshalJSON, Unmarshal_new_string_ptr.
  rewrite H. destruct v; try reflexivity.
  - contradiction.
  - now contradiction (Hstr s).
Qed.

(** On a JSON null the pointer [str] stays nil and [*str] panics. *)
Lemma null_type_panics (data : string) :
  json_decode data = Some VNil ->
  Stub_Type_decoded json_decode (Some data) = Panic NilPointerDereference.
Proof.
  intros H. unfold Stub_Type_decoded, StubType_UnmarshalJSON, Unmarshal_new_string_ptr.
  now rewrite H.
Qed.

End StubTypes.

(** C7 is contradicted by the code where the [type] field is omitted:
    [UnmarshalJSON] is the only place that puts [mock] in, and the decoder
    does not call it for a key the record does not have, so the type of
    the decoded stub is the empty string, not [mock].  (With the field
    present and empty the type is [mock], see
    [empty_type_defaults_to_mock].) *)
Theorem omitted_type_is_left_unset (json_decode : string -> option any) :
  Stub_Type_decoded json_decode None = Ret ""
  /\ Stub_Type_decoded json_decode None <> Ret "mock".
Proof. split; [ reflexivity | discriminate ]. Qed.

(** C8.  [MarshalJSON] writes the empty content as the text of the empty
    object and every other content unchanged; it never writes the empty
    text and never returns an error. *)
Theorem MarshalJSON_empty_is_empty_object (j : JsonString) :
  (j = "" -> MarshalJSON j = ("{}", None))
  /\ (j <> "" -> MarshalJSON j = (j, None))
  /\ fst (MarshalJSON j) <> ""
  /\ snd (MarshalJSON j) = None.
Proof.
  unfold MarshalJSON. destruct (j =? "") eqn:Hj.
  - apply String.eqb_eq in Hj. repeat split; try reflexivity; try discriminate.
    intros Hne. contradiction.
  - apply String.eqb_neq in Hj. repeat split; try reflexivity; try assumption.
    intros Heq. contradiction.
Qed.

Lemma MarshalJSON_empty_is_empty_object_witness :
  MarshalJSON "" = ("{}", None) /\ MarshalJSON text_a1 = (text_a1, None).
Proof.
  split.
  - destruct (MarshalJSON_empty_is_empty_object "") as [H _]. apply H. reflexivity.
  - destruct (MarshalJSON_empty_is_empty_object text_a1) as [_ [H _]].
    apply H. vm_compute. discriminate.
Defined.

(* ================================================================= *)
(** * Further properties of the code *)

(** ** Success of a comparison, in either mode *)

Lemma jsonStringMatches_true (jsonMap otherJsonMap : object) (mustBeEqual : bool) :
  jsonStringMatches jsonMap otherJsonMap mustBeEqual = Ret true
  <-> (mustBeEqual = true -> len jsonMap = len otherJsonMap)
      /\ forall key value, In (key, value) jsonMap ->
           exists otherValue, map_get key otherJsonMap = Some otherValue
                              /\ value_matches value otherValue mustBeEqual = Ret true.
Proof.
  rewrite jsonStringMatches_unfold.
  destruct (len jsonMap =? len otherJsonMap)%nat eqn:Hlen.
  - apply Nat.eqb_eq in Hlen. rewrite andb_false_r.
    rewrite range_fields_true, Forall_forall. split.
    + intros H. split; [ intros _; exact Hlen | ].
      intros key value Hin. specialize (H _ Hin). simpl in H. unfold field_matches in H.
      destruct (map_get key otherJsonMap) as [ otherValue | ]; [ | discriminate ].
      exists otherValue. split; [ reflexivity | exact H ].
    + intros [_ H] [key value] Hin. simpl. unfold field_matches.
      destruct (H _ _ Hin) as [otherValue [-> Hm]]. exact Hm.
  - apply Nat.eqb_neq in Hlen. destruct mustBeEqual; simpl.
    + split; [ discriminate | ]. intros [H _]. now contradiction Hlen; apply H.
    + rewrite range_fields_true, Forall_forall. split.
      * intros H. split; [ discriminate | ].
        intros key value Hin. specialize (H _ Hin). simpl in H. unfold field_matches in H.
        destruct (map_get key otherJsonMap) as [ otherValue | ]; [ | discriminate ].
        exists otherValue. split; [ reflexivity | exact H ].
      * intros [_ H] [key value] Hin. simpl. unfold field_matches.
        destruct (H _ _ Hin) as [otherValue [-> Hm]]. exact Hm.
Qed.

Lemma failing_field (E A : object) (mustBeEqual : bool) (key : string) (value : any) :
  In (key, value) E ->
  field_matches A mustBeEqual key value = Ret false ->
  jsonStringMatches E A mustBeEqual <> Ret true
  /\ (returns (jsonStringMatches E A mustBeEqual) ->
      jsonStringMatches E A mustBeEqual = Ret false).
Proof.
  intros Hin Hfield.
  assert (Hnot : jsonStringMatches E A mustBeEqual <> Ret true).
  { rewrite jsonStringMatches_unfold.
    destruct (mustBeEqual && negb (len E =? len A)%nat); [ discriminate | ].
    rewrite range_fields_true, Forall_forall. intros H.
    specialize (H _ Hin). simpl in H. congruence. }
  split; [ exact Hnot | ].
  destruct (jsonStringMatches E A mustBeEqual) as [ [ | ] | e ]; simpl;
    [ now contradiction Hnot | reflexivity | contradiction ].
Qed.

(** A comparison of elements that succeeds is a successful
    [value_matches] on an element that is not an array, and conversely. *)
Lemma counterpart_value_matches (mustBeEqual : bool) (item otherItem : any) :
  counterpart mustBeEqual item otherItem
  <-> is_slice item = false /\ value_matches item otherItem mustBeEqual = Ret true.
Proof.
  rewrite counterpart_item_equals. split.
  - intros H. pose proof (item_equals_true_inv _ _ _ H) as [Hs [Hk [Hm Hsc]]].
    split; [ exact Hs | ].
    destruct item; try discriminate; try (now apply Hm);
      destruct otherItem; try discriminate;
      specialize (Hsc eq_refl); simpl in *; exact Hsc.
  - intros [Hs H]. unfold item_equals.
    destruct (typeName item =? typeName otherItem) eqn:Hk.
    + simpl. destruct item; try discriminate; try exact H;
        destruct otherItem; try discriminate; simpl in *; exact H.
    + rewrite (value_matches_kind _ _ _ Hk) in H. discriminate.
Qed.

(** ** [==] on numbers *)

Lemma SFeqb_true_inv (x y : spec_float) :
  SFeqb x y = true ->
  (exists s s', x = S754_zero s /\ y = S754_zero s') \/ (x = y /\ is_nan x = false).
Proof.
  unfold SFeqb.
  destruct x as [ s | s | | s m e ], y as [ s' | s' | | s' m' e' ]; simpl;
    try discriminate; try destruct s; try destruct s'; simpl; try discriminate;
    intros H;
    try (left; eexists; eexists; split; reflexivity);
    try (right; split; reflexivity);
    right; (split; [ | reflexivity ]);
    destruct (Z.compare e e') eqn:He; try discriminate;
    apply Z.compare_eq in He; subst e';
    destruct (Pos.compare_cont Eq m m') eqn:Hm; try discriminate;
    apply Pos.compare_eq in Hm; subst m'; reflexivity.
Qed.

Lemma SFeqb_zeros (s s' : bool) : SFeqb (S754_zero s) (S754_zero s') = true.
Proof. reflexivity. Qed.

Lemma SFeqb_sym (x y : spec_float) : SFeqb x y = true -> SFeqb y x = true.
Proof.
  intros H. destruct (SFeqb_true_inv _ _ H) as [[s [s' [-> ->]]] | [<- Hnan]].
  - apply SFeqb_zeros.
  - now apply SFeqb_refl.
Qed.

Lemma SFeqb_trans (x y z : spec_float) :
  SFeqb x y = true -> SFeqb y z = true -> SFeqb x z = true.
Proof.
  intros Hxy Hyz.
  destruct (SFeqb_true_inv _ _ Hxy) as [[s [s' [-> ->]]] | [<- _]]; [ | exact Hyz ].
  destruct (SFeqb_true_inv _ _ Hyz) as [[t [t' [_ ->]]] | [<- _]]; apply SFeqb_zeros.
Qed.

Lemma iface_eq_sym (a b : any) : iface_eq a b = Ret true -> iface_eq b a = Ret true.
Proof.
  destruct a, b; simpl; try discriminate; try (intros _; reflexivity);
    intros H; injection H as H; f_equal.
  - apply Bool.eqb_prop in H. subst. apply Bool.eqb_reflx.
  - now apply SFeqb_sym.
  - apply String.eqb_eq in H. subst. apply String.eqb_refl.
Qed.

Lemma iface_eq_trans (a b c : any) :
  iface_eq a b = Ret true -> iface_eq b c = Ret true -> iface_eq a c = Ret true.
Proof.
  destruct a, b; simpl; try discriminate; destruct c; simpl; try discriminate;
    try (intros _ _; reflexivity);
    intros H1 H2; injection H1 as H1; injection H2 as H2; f_equal.
  - apply Bool.eqb_prop in H1. now subst.
  - now apply (SFeqb_trans _ f0).
  - apply String.eqb_eq in H1. now subst.
Qed.

(** ** The comparison as a relation *)

Lemma value_matches_trans (value : any) :
  forall (a b : any) (mustBeEqual : bool),
    value_matches value a mustBeEqual = Ret true ->
    value_matches a b mustBeEqual = Ret true ->
    value_matches value b mustBeEqual = Ret true.
Proof.
  induction value as [ | x | f | s | items IH | fields IH ] using any_ind;
    intros a b mustBeEqual H1 H2.
  - destruct a; try discriminate. exact H2.
  - destruct a; try discriminate. destruct b; try discriminate.
    simpl in *. injection H1 as H1. apply Bool.eqb_prop in H1. now subst.
  - destruct a; try discriminate. destruct b; try discriminate.
    simpl in *. injection H1 as H1. injection H2 as H2. f_equal.
    now apply (SFeqb_trans _ f0).
  - destruct a; try discriminate. destruct b; try discriminate.
    simpl in *. injection H1 as H1. apply String.eqb_eq in H1. now subst.
  - destruct a as [ | | | | as_ | ]; try discriminate.
    destruct b as [ | | | | bs | ]; try discriminate.
    rewrite value_matches_slice in *.
    apply slices_match_true in H1 as [Hlen1 H1].
    apply slices_match_true in H2 as [Hlen2 H2].
    apply slices_match_true. split; [ congruence | ].
    intros item Hin. destruct (H1 item Hin) as [o [Ho Hc]].
    destruct (H2 o Ho) as [p [Hp Hc']]. exists p. split; [ exact Hp | ].
    apply counterpart_value_matches in Hc as [Hs Hm].
    apply counterpart_value_matches in Hc' as [_ Hm'].
    apply counterpart_value_matches. split; [ exact Hs | ].
    rewrite Forall_forall in IH. apply (IH item Hin o p mustBeEqual Hm Hm').
  - destruct a as [ | | | | | am ]; try discriminate.
    destruct b as [ | | | | | bm ]; try discriminate.
    rewrite value_matches_map in *.
    apply jsonStringMatches_true in H1 as [Hlen1 H1].
    apply jsonStringMatches_true in H2 as [Hlen2 H2].
    apply jsonStringMatches_true. split.
    + intros Hm. rewrite (Hlen1 Hm). now apply Hlen2.
    + intros key value Hin. destruct (H1 _ _ Hin) as [av [Hget Hav]].
      destruct (H2 _ _ (map_get_In _ _ _ Hget)) as [bv [Hget' Hbv]].
      exists bv. split; [ exact Hget' | ].
      rewrite Forall_forall in IH. apply (IH _ Hin av bv mustBeEqual Hav Hbv).
Qed.

Lemma map_get_keys (key : string) (m : object) (v : any) :
  map_get key m = Some v -> In key (keys m).
Proof.
  intros H. apply map_get_In in H. unfold keys. apply in_map_iff.
  exists (key, v). split; [ reflexivity | exact H ].
Qed.

Lemma exact_same_keys (E A : object) :
  jsonStringMatches E A true = Ret true ->
  distinct (keys E) = true ->
  incl (keys E) (keys A) /\ incl (keys A) (keys E).
Proof.
  intros H Hd. apply jsonStringMatches_true in H as [Hlen H].
  assert (Hincl : incl (keys E) (keys A)).
  { intros k Hk. unfold keys in Hk. apply in_map_iff in Hk as [[k' v] [Heq Hin]].
    simpl in Heq. subst k'. destruct (H _ _ Hin) as [ov [Hget _]].
    now apply (map_get_keys _ _ ov). }
  split; [ exact Hincl | ].
  apply NoDup_length_incl; [ now apply distinct_NoDup | | exact Hincl ].
  unfold keys. rewrite !length_map. specialize (Hlen eq_refl). unfold len in Hlen. lia.
Qed.

Lemma value_matches_exact_sym (value : any) :
  forall a : any,
    value_matches value a true = Ret true ->
    slice_free value = true -> decoded value = true -> decoded a = true ->
    value_matches a value true = Ret true.
Proof.
  induction value as [ | x | f | s | items IH | fields IH ] using any_ind;
    intros a H Hfree Hdec Hdeca.
  - destruct a; try discriminate. reflexivity.
  - destruct a; try discriminate. simpl in *. injection H as H.
    apply Bool.eqb_prop in H. subst. now rewrite Bool.eqb_reflx.
  - destruct a; try discriminate. simpl in *. injection H as H.
    now rewrite (SFeqb_sym _ _ H).
  - destruct a; try discriminate. simpl in *. injection H as H.
    apply String.eqb_eq in H. subst. now rewrite String.eqb_refl.
  - discriminate.
  - destruct a as [ | | | | | am ]; try discriminate.
    rewrite value_matches_map in *.
    simpl in Hfree, Hdec, Hdeca.
    apply andb_true_iff in Hdec as [Hkeys Hdec].
    apply andb_true_iff in Hdeca as [Hkeysa Hdeca].
    rewrite forallb_forall in Hfree, Hdec, Hdeca. rewrite Forall_forall in IH.
    destruct (exact_same_keys _ _ H Hkeys) as [_ Hback].
    apply jsonStringMatches_true in H as [Hlen H].
    apply jsonStringMatches_true. split; [ intros _; symmetry; now apply Hlen | ].
    intros key av Hin.
    assert (Hk : In key (keys fields)).
    { apply Hback. unfold keys. apply in_map_iff. exists (key, av). now split. }
    unfold keys in Hk. apply in_map_iff in Hk as [[key' ev] [Heq Hine]].
    simpl in Heq. subst key'.
    exists ev. split; [ now apply map_get_distinct | ].
    destruct (H _ _ Hine) as [av' [Hget Hm]].
    rewrite (map_get_distinct _ _ _ Hkeysa Hin) in Hget. injection Hget as <-.
    apply (IH _ Hine av Hm (Hfree _ Hine) (Hdec _ Hine) (Hdeca _ Hin)).
Qed.

(** ** The one panic of the comparator *)

Lemma range_fields_panic (body : string -> any -> result bool) (jsonMap : object)
  (e : runtime_error) :
  range_fields body jsonMap = Panic e ->
  exists key value, In (key, value) jsonMap /\ body key value = Panic e.
Proof.
  induction jsonMap as [ | [key value] rest IH ]; simpl; [ discriminate | ].
  destruct (body key value) as [ [ | ] | e' ] eqn:Hb; simpl.
  - intros H. destruct (IH H) as [k [v [Hin Hp]]]. exists k, v. split; [ now right | exact Hp ].
  - discriminate.
  - intros H. injection H as ->. exists key, value. split; [ now left | exact Hb ].
Qed.

Lemma range_items_panic (search : any -> result bool) (items : list any)
  (e : runtime_error) :
  range_items search items = Panic e ->
  exists item, In item items /\ search item = Panic e.
Proof.
  induction items as [ | item rest IH ]; simpl; [ discriminate | ].
  destruct (search item) as [ [ | ] | e' ] eqn:Hs; simpl.
  - intros H. destruct (IH H) as [i [Hin Hp]]. exists i. split; [ now right | exact Hp ].
  - discriminate.
  - intros H. injection H as ->. exists item. split; [ now left | exact Hs ].
Qed.

Lemma scan_otherItems_panic (same : any -> result bool) (otherItems : list any)
  (e : runtime_error) :
  forall found, scan_otherItems same otherItems found = Panic e ->
                exists o, In o otherItems /\ same o = Panic e.
Proof.
  induction otherItems as [ | o rest IH ]; intros found; simpl; [ discriminate | ].
  destruct (same o) as [ hit | e' ] eqn:Hs; simpl.
  - intros H. destruct (IH _ H) as [o' [Hin Hp]]. exists o'. split; [ now right | exact Hp ].
  - intros H. injection H as ->. exists o. split; [ now left | exact Hs ].
Qed.

Lemma value_matches_panic (value : any) :
  forall (otherValue : any) (mustBeEqual : bool) (e : runtime_error),
    value_matches value otherValue mustBeEqual = Panic e ->
    e = UncomparableType "[]interface {}".
Proof.
  induction value as [ | x | f | s | items IH | fields IH ] using any_ind;
    intros otherValue mustBeEqual e H.
  - destruct otherValue; discriminate.
  - destruct otherValue; discriminate.
  - destruct otherValue; discriminate.
  - destruct otherValue; discriminate.
  - destruct otherValue as [ | | | | otherItems | ]; try discriminate.
    rewrite value_matches_slice in H. unfold slices_match in H.
    destruct (negb (len items =? len otherItems)%nat); [ discriminate | ].
    apply range_items_panic in H as [item [Hin H]].
    apply scan_otherItems_panic in H as [o [_ H]].
    unfold item_equals in H.
    destruct (negb (typeName item =? typeName o)); [ discriminate | ].
    rewrite Forall_forall in IH.
    destruct item; try (destruct o; simpl in H; try discriminate; now injection H as <-).
    apply (IH _ Hin o mustBeEqual e H).
  - destruct otherValue as [ | | | | | otherJsonMap ]; try discriminate.
    rewrite value_matches_map, jsonStringMatches_unfold in H.
    destruct (mustBeEqual && negb (len fields =? len otherJsonMap)%nat); [ discriminate | ].
    apply range_fields_panic in H as [key [value [Hin H]]].
    unfold field_matches in H.
    destruct (map_get key otherJsonMap) as [ ov | ]; [ | discriminate ].
    rewrite Forall_forall in IH. apply (IH _ Hin ov mustBeEqual e H).
Qed.

(** ** Arrays up to the order of their elements *)

Lemma range_items_forallb (search : any -> result bool) (items : list any) :
  Forall (fun item => returns (search item)) items ->
  range_items search items
  = Ret (forallb (fun item => match search item with
                              | Ret found => found
                              | Panic _ => false
                              end) items).
Proof.
  induction 1 as [ | item rest Hhd _ IH ]; simpl; [ reflexivity | ].
  destruct (search item) as [ [ | ] | e ]; simpl;
    [ exact IH | reflexivity | contradiction ].
Qed.

Lemma existsb_permutation {A : Type} (f : A -> bool) (l l' : list A) :
  Permutation l l' -> existsb f l = existsb f l'.
Proof.
  induction 1 as [ | x l l' _ IH | x y l | l l' l'' _ IH1 _ IH2 ]; simpl.
  - reflexivity.
  - now rewrite IH.
  - now rewrite !orb_assoc, (orb_comm (f y) (f x)).
  - now rewrite IH1.
Qed.

Lemma forallb_ext_in {A : Type} (f g : A -> bool) (l : list A) :
  (forall x, In x l -> f x = g x) -> forallb f l = forallb g l.
Proof.
  induction l as [ | x l IH ]; simpl; intros H; [ reflexivity | ].
  rewrite (H x (or_introl eq_refl)), IH; [ reflexivity | ].
  intros y Hy. apply H. now right.
Qed.

Lemma scan_otherItems_existsb (same : any -> result bool) (otherItems : list any) :
  Forall (fun o => returns (same o)) otherItems ->
  scan_otherItems same otherItems false
  = Ret (existsb (fun o => match same o with
                           | Ret hit => hit
                           | Panic _ => false
                           end) otherItems).
Proof.
  intros Hall. apply scan_otherItems_spec. split; [ exact Hall | reflexivity ].
Qed.

Lemma slices_match_permutation (items items' otherItems otherItems' : list any)
  (mustBeEqual : bool) :
  Permutation items items' -> Permutation otherItems otherItems' ->
  nested_slice_free (VSlice items) = true ->
  slices_match items otherItems mustBeEqual
  = slices_match items' otherItems' mustBeEqual.
Proof.
  intros Hp Hq Hfree. unfold slices_match, len.
  rewrite (Permutation_length Hp), (Permutation_length Hq).
  destruct (negb (List.length items' =? List.length otherItems')%nat); [ reflexivity | ].
  simpl in Hfree. rewrite forallb_forall in Hfree.
  assert (Hcmp : forall item others, In item items ->
            Forall (fun o => returns (item_equals item o mustBeEqual)) others).
  { intros item others Hin. apply Forall_forall. intros o _.
    specialize (Hfree _ Hin). apply andb_true_iff in Hfree as [Hns Hfree].
    apply item_equals_returns; [ now apply negb_true_iff in Hns | ].
    intros ov. now apply value_matches_returns. }
  assert (Hscan : forall item others, In item items ->
            scan_otherItems (fun o => item_equals item o mustBeEqual) others false
            = Ret (existsb (fun o => match item_equals item o mustBeEqual with
                                     | Ret hit => hit
                                     | Panic _ => false
                                     end) others)).
  { intros item others Hin. apply scan_otherItems_existsb. now apply Hcmp. }
  rewrite (range_items_forallb _ items), (range_items_forallb _ items').
  - f_equal. rewrite (forallb_permutation _ _ _ Hp).
    apply forallb_ext_in. intros item Hin.
    apply (Permutation_in _ (Permutation_sym Hp)) in Hin.
    rewrite !(Hscan _ _ Hin). now apply existsb_permutation.
  - apply Forall_forall. intros item Hin.
    apply (Permutation_in _ (Permutation_sym Hp)) in Hin.
    rewrite (Hscan _ _ Hin). exact I.
  - apply Forall_forall. intros item Hin. rewrite (Hscan _ _ Hin). exact I.
Qed.

(** ** What the comparison reads of the actual object *)

Lemma range_fields_ext_in (body body' : string -> any -> result bool) (jsonMap : object) :
  (forall key value, In (key, value) jsonMap -> body key value = body' key value) ->
  range_fields body jsonMap = range_fields body' jsonMap.
Proof.
  induction jsonMap as [ | [key value] rest IH ]; simpl; intros H; [ reflexivity | ].
  rewrite (H key value (or_introl eq_refl)), IH; [ reflexivity | ].
  intros k v Hin. apply H. now right.
Qed.

Lemma value_matches_scalar_mode (value otherValue : any) (m m' : bool) :
  is_slice value = false -> is_map value = false ->
  value_matches value otherValue m = value_matches value otherValue m'.
Proof.
  intros Hs Hm. destruct value; try discriminate; destruct otherValue; reflexivity.
Qed.

Lemma value_matches_mutual_exact (value : any) :
  forall a : any,
    value_matches value a false = Ret true ->
    value_matches a value false = Ret true ->
    slice_free value = true -> decoded value = true -> decoded a = true ->
    value_matches value a true = Ret true.
Proof.
  induction value as [ | x | f | s | items IH | fields IH ] using any_ind;
    intros a H1 H2 Hfree Hdec Hdeca.
  - now rewrite (value_matches_scalar_mode VNil a true false).
  - now rewrite (value_matches_scalar_mode (VBool x) a true false).
  - now rewrite (value_matches_scalar_mode (VFloat64 f) a true false).
  - now rewrite (value_matches_scalar_mode (VString s) a true false).
  - discriminate.
  - destruct a as [ | | | | | am ]; try discriminate.
    rewrite value_matches_map in *.
    simpl in Hfree, Hdec, Hdeca.
    apply andb_true_iff in Hdec as [Hkeys Hdec].
    apply andb_true_iff in Hdeca as [Hkeysa Hdeca].
    rewrite forallb_forall in Hfree, Hdec, Hdeca. rewrite Forall_forall in IH.
    apply jsonStringMatches_true in H1 as [_ H1].
    apply jsonStringMatches_true in H2 as [_ H2].
    apply jsonStringMatches_true. split.
    + intros _. unfold len. rewrite <- (length_map fst fields), <- (length_map fst am).
      apply Nat.le_antisymm; apply NoDup_incl_length.
      * now apply distinct_NoDup.
      * intros k Hk. apply in_map_iff in Hk as [[k' v] [Heq Hin]]. simpl in Heq. subst k'.
        destruct (H1 _ _ Hin) as [ov [Hget _]]. now apply (map_get_keys _ _ ov).
      * now apply distinct_NoDup.
      * intros k Hk. apply in_map_iff in Hk as [[k' v] [Heq Hin]]. simpl in Heq. subst k'.
        destruct (H2 _ _ Hin) as [ov [Hget _]]. now apply (map_get_keys _ _ ov).
    + intros key ev Hin. destruct (H1 _ _ Hin) as [av [Hget Hm]].
      exists av. split; [ exact Hget | ].
      pose proof (map_get_In _ _ _ Hget) as Hina.
      destruct (H2 _ _ Hina) as [ev' [Hget' Hm']].
      rewrite (map_get_distinct _ _ _ Hkeys Hin) in Hget'. injection Hget' as <-.
      apply (IH _ Hin av Hm Hm' (Hfree _ Hin) (Hdec _ Hin) (Hdeca _ Hina)).
Qed.

(* ----------------------------------------------------------------- *)
(** ** [jsonStringMatches] *)

Lemma value_matches_returns_actual (value : any) :
  forall (otherValue : any) (mustBeEqual : bool),
    nested_slice_free otherValue = true ->
    returns (value_matches value otherValue mustBeEqual).
Proof.
  induction value as [ | x | f | s | items IH | fields IH ] using any_ind;
    intros otherValue mustBeEqual Hfree.
  - destruct otherValue; exact I.
  - destruct otherValue; exact I.
  - destruct otherValue; exact I.
  - destruct otherValue; exact I.
  - destruct otherValue as [ | | | | otherItems | ]; try exact I.
    rewrite value_matches_slice. unfold slices_match.
    destruct (negb (len items =? len otherItems)%nat); [ exact I | ].
    apply range_items_returns.
    simpl in Hfree. rewrite forallb_forall in Hfree. rewrite Forall_forall in IH |- *.
    intros item Hin. apply scan_otherItems_returns. apply Forall_forall.
    intros o Ho. specialize (Hfree _ Ho). apply andb_true_iff in Hfree as [Hns Hfree].
    apply negb_true_iff in Hns. unfold item_equals.
    destruct (typeName item =? typeName o) eqn:Hk; simpl; [ | exact I ].
    apply String.eqb_eq in Hk.
    destruct item; try (destruct o; try discriminate; exact I).
    now apply IH.
  - destruct otherValue as [ | | | | | otherJsonMap ]; try exact I.
    rewrite value_matches_map, jsonStringMatches_unfold.
    destruct (mustBeEqual && negb (len fields =? len otherJsonMap)%nat); [ exact I | ].
    apply range_fields_returns.
    simpl in Hfree. rewrite forallb_forall in Hfree. rewrite Forall_forall in IH |- *.
    intros [key value] Hin. simpl. unfold field_matches.
    destruct (map_get key otherJsonMap) as [ ov | ] eqn:Hget; [ | exact I ].
    apply (IH _ Hin). apply (Hfree _ (map_get_In _ _ _ Hget)).
Qed.

Lemma comparison_panics_need_both_sides (E A : object) (mustBeEqual : bool) :
  nested_slice_free (VMap E) = true \/ nested_slice_free (VMap A) = true ->
  returns (jsonStringMatches E A mustBeEqual).
Proof.
  intros [H | H].
  - now apply jsonStringMatches_returns.
  - rewrite <- value_matches_map. now apply value_matches_returns_actual.
Qed.

(** X1.  The comparator panics only when both objects hold an array
    inside an array: when the expected object or the actual object has
    none, the comparison returns, in either mode. *)
Theorem comparison_returns_without_nested_arrays
  (E A : object) (mustBeEqual : bool) :
  nested_slice_free (VMap E) = true \/ nested_slice_free (VMap A) = true ->
  returns (jsonStringMatches E A mustBeEqual).
Proof. apply comparison_panics_need_both_sides. Qed.

Lemma comparison_returns_without_nested_arrays_witness :
  returns (jsonStringMatches doc_b1_b1c2 doc_nested_array true)
  /\ returns (jsonStringMatches doc_nested_array [("a", VSlice [num 1])] false).
Proof.
  split.
  - apply (comparison_returns_without_nested_arrays doc_b1_b1c2 doc_nested_array true).
    left. reflexivity.
  - apply (comparison_returns_without_nested_arrays doc_nested_array
             [("a", VSlice [num 1])] false).
    right. reflexivity.
Defined.

(** X2.  An expected object that holds an array inside an array is matched
    by no actual object, in either mode: the comparison returns false or
    panics. *)
Theorem nested_array_in_expected_never_matches
  (E A : object) (mustBeEqual : bool) :
  nested_slice_free (VMap E) = false ->
  jsonStringMatches E A mustBeEqual <> Ret true.
Proof.
  intros Hfree H. rewrite <- value_matches_map in H.
  apply value_matches_true_free in H. congruence.
Qed.

Lemma nested_array_in_expected_never_matches_witness :
  jsonStringMatches doc_nested_array doc_a12 false <> Ret true.
Proof.
  apply (nested_array_in_expected_never_matches doc_nested_array doc_a12 false).
  reflexivity.
Defined.

(** X3.  The comparator has one way to panic: the comparison by [==] of
    two arrays.  It returns, or it panics with "comparing uncomparable
    type []interface {}"; two objects are never compared by [==]. *)
Theorem comparator_panics_only_on_slice_comparison
  (E A : object) (mustBeEqual : bool) :
  returns (jsonStringMatches E A mustBeEqual)
  \/ jsonStringMatches E A mustBeEqual = Panic (UncomparableType "[]interface {}").
Proof.
  destruct (jsonStringMatches E A mustBeEqual) as [ b | e ] eqn:H.
  - left. exact I.
  - right. rewrite <- value_matches_map in H.
    now rewrite (value_matches_panic _ _ _ _ H).
Qed.

(** X4.  An object with pairwise distinct field names at every level, no
    NaN and no array inside an array matches itself, in either mode. *)
Theorem comparison_is_reflexive_on_decoded_objects
  (X : object) (mustBeEqual : bool) :
  decoded (VMap X) = true -> nested_slice_free (VMap X) = true ->
  jsonStringMatches X X mustBeEqual = Ret true.
Proof. intros Hd Hf. now apply jsonStringMatches_refl. Qed.

Lemma comparison_is_reflexive_on_decoded_objects_witness :
  jsonStringMatches doc_b1_b1c2 doc_b1_b1c2 true = Ret true.
Proof.
  apply (comparison_is_reflexive_on_decoded_objects doc_b1_b1c2 true); reflexivity.
Defined.

(** X5.  Matching is transitive in each mode: when [E] is matched by [A]
    and [A] is matched by [B], [E] is matched by [B]. *)
Theorem comparison_is_transitive (E A B : object) (mustBeEqual : bool) :
  jsonStringMatches E A mustBeEqual = Ret true ->
  jsonStringMatches A B mustBeEqual = Ret true ->
  jsonStringMatches E B mustBeEqual = Ret true.
Proof.
  rewrite <- !value_matches_map. apply value_matches_trans.
Qed.

Lemma comparison_is_transitive_witness :
  jsonStringMatches doc_a1 doc_a1_b2_c3 false = Ret true.
Proof.
  apply (comparison_is_transitive doc_a1 doc_a1_b2 doc_a1_b2_c3 false); reflexivity.
Defined.

(** X6.  On decoded objects without arrays exact mode is symmetric: when
    [E] is exactly matched by [A], [A] is exactly matched by [E].  With
    arrays it is not: [{a:[1,1]}] is exactly matched by [{a:[1,2]}], and
    [{a:[1,2]}] is not exactly matched by [{a:[1,1]}]. *)
Theorem exact_comparison_is_symmetric_without_arrays (E A : object) :
  (jsonStringMatches E A true = Ret true ->
   slice_free (VMap E) = true -> decoded (VMap E) = true -> decoded (VMap A) = true ->
   jsonStringMatches A E true = Ret true)
  /\ jsonStringMatches doc_a11 doc_a12 true = Ret true
  /\ jsonStringMatches doc_a12 doc_a11 true = Ret false.
Proof.
  split; [ | split; vm_compute; reflexivity ].
  rewrite <- !value_matches_map. apply value_matches_exact_sym.
Qed.

Lemma exact_comparison_is_symmetric_without_arrays_witness :
  jsonStringMatches doc_b2_a1 doc_a1_b2 true = Ret true.
Proof.
  destruct (exact_comparison_is_symmetric_without_arrays doc_a1_b2 doc_b2_a1) as [H _].
  apply H; reflexivity.
Defined.

(** X7.  On decoded objects without arrays, two objects that match each
    other in partial mode match in exact mode. *)
Theorem mutual_partial_match_is_exact_match (E A : object) :
  jsonStringMatches E A false = Ret true ->
  jsonStringMatches A E false = Ret true ->
  slice_free (VMap E) = true -> decoded (VMap E) = true -> decoded (VMap A) = true ->
  jsonStringMatches E A true = Ret true.
Proof.
  rewrite <- !value_matches_map. apply value_matches_mutual_exact.
Qed.

Lemma mutual_partial_match_is_exact_match_witness :
  jsonStringMatches doc_a1_b2 doc_b2_a1 true = Ret true.
Proof.
  apply (mutual_partial_match_is_exact_match doc_a1_b2 doc_b2_a1); reflexivity.
Defined.

(** X8.  A field of the expected object that the actual object does not
    have makes the comparison fail in either mode: it never returns true,
    and it returns false when the expected object has no array inside an
    array. *)
Theorem missing_field_is_rejected
  (E A : object) (mustBeEqual : bool) (key : string) (value : any) :
  In (key, value) E -> map_get key A = None ->
  jsonStringMatches E A mustBeEqual <> Ret true
  /\ (nested_slice_free (VMap E) = true ->
      jsonStringMatches E A mustBeEqual = Ret false).
Proof.
  intros Hin Hget.
  destruct (failing_field E A mustBeEqual key value Hin) as [Hnot Hret].
  { unfold field_matches. now rewrite Hget. }
  split; [ exact Hnot | ].
  intros Hfree. apply Hret. now apply jsonStringMatches_returns.
Qed.

Lemma missing_field_is_rejected_witness :
  jsonStringMatches doc_a1_b2_c3 doc_a1_b2 false = Ret false.
Proof.
  destruct (missing_field_is_rejected doc_a1_b2_c3 doc_a1_b2 false "c" (num 3))
    as [_ H].
  - right. right. left. reflexivity.
  - reflexivity.
  - apply H. reflexivity.
Defined.

(** X9.  A field whose expected and actual values differ in their JSON
    kind makes the comparison fail in either mode, whatever the two
    values are. *)
Theorem kind_mismatch_is_rejected
  (E A : object) (mustBeEqual : bool) (key : string) (value otherValue : any) :
  In (key, value) E -> map_get key A = Some otherValue ->
  typeName value <> typeName otherValue ->
  jsonStringMatches E A mustBeEqual <> Ret true
  /\ (nested_slice_free (VMap E) = true ->
      jsonStringMatches E A mustBeEqual = Ret false).
Proof.
  intros Hin Hget Hkind.
  destruct (failing_field E A mustBeEqual key value Hin) as [Hnot Hret].
  { unfold field_matches. rewrite Hget. apply value_matches_kind.
    now apply String.eqb_neq. }
  split; [ exact Hnot | ].
  intros Hfree. apply Hret. now apply jsonStringMatches_returns.
Qed.

Lemma kind_mismatch_is_rejected_witness :
  jsonStringMatches doc_a1 doc_a_text false = Ret false.
Proof.
  destruct (kind_mismatch_is_rejected doc_a1 doc_a_text false "a" (num 1) (VString "1"))
    as [_ H].
  - left. reflexivity.
  - reflexivity.
  - vm_compute. discriminate.
  - apply H. reflexivity.
Defined.

(** X10.  The result does not depend on the order in which the entries
    of the two maps are visited: permuting the entries of the actual
    object (its field names being distinct) and those of an expected
    object without an array inside an array leaves the result as it is. *)
Theorem entry_order_is_irrelevant (E E' A A' : object) (mustBeEqual : bool) :
  Permutation E E' -> Permutation A A' ->
  distinct (keys A) = true -> nested_slice_free (VMap E) = true ->
  jsonStringMatches E A mustBeEqual = jsonStringMatches E' A' mustBeEqual.
Proof.
  intros HE HA Hd Hfree.
  rewrite (jsonStringMatches_order_actual E A A' mustBeEqual HA Hd).
  now apply jsonStringMatches_order_expected.
Qed.

Lemma entry_order_is_irrelevant_witness :
  jsonStringMatches doc_a1_b2 doc_a1_b2_c3 false
  = jsonStringMatches doc_b2_a1 (("c", num 3) :: doc_b2_a1) false.
Proof.
  apply (entry_order_is_irrelevant doc_a1_b2 doc_b2_a1 doc_a1_b2_c3
           (("c", num 3) :: doc_b2_a1) false).
  - apply perm_swap.
  - apply Permutation_sym. apply (Permutation_cons_app [_; _] []). apply perm_swap.
  - reflexivity.
  - reflexivity.
Defined.

(** X11.  The array rule does not depend on the order of the elements of
    either array: permuting the actual array and an expected array that
    holds no array inside an array leaves the result as it is. *)
Theorem array_order_is_irrelevant
  (items items' otherItems otherItems' : list any) (mustBeEqual : bool) :
  Permutation items items' -> Permutation otherItems otherItems' ->
  nested_slice_free (VSlice items) = true ->
  value_matches (VSlice items) (VSlice otherItems) mustBeEqual
  = value_matches (VSlice items') (VSlice otherItems') mustBeEqual.
Proof.
  rewrite !value_matches_slice. apply slices_match_permutation.
Qed.

Lemma array_order_is_irrelevant_witness :
  value_matches (VSlice [num 1; VMap doc_a1]) (VSlice [num 2; VMap doc_a1_b2]) false
  = value_matches (VSlice [VMap doc_a1; num 1]) (VSlice [VMap doc_a1_b2; num 2]) false.
Proof.
  apply (array_order_is_irrelevant [num 1; VMap doc_a1] [VMap doc_a1; num 1]
           [num 2; VMap doc_a1_b2] [VMap doc_a1_b2; num 2] false).
  - apply perm_swap.
  - apply perm_swap.
  - reflexivity.
Defined.

(** X12.  The comparison reads the actual object only through the fields
    the expected object names (and, in exact mode, through its field
    count): two actual objects that agree there give the same result. *)
Theorem comparison_reads_only_expected_fields
  (E A A' : object) (mustBeEqual : bool) :
  (forall key value, In (key, value) E -> map_get key A = map_get key A') ->
  (mustBeEqual = true -> len A = len A') ->
  jsonStringMatches E A mustBeEqual = jsonStringMatches E A' mustBeEqual.
Proof.
  intros Hsame Hlen. rewrite !jsonStringMatches_unfold.
  assert (Hcond : mustBeEqual && negb (len E =? len A)%nat
                  = mustBeEqual && negb (len E =? len A')%nat).
  { destruct mustBeEqual; [ | reflexivity ]. now rewrite (Hlen eq_refl). }
  rewrite Hcond.
  destruct (mustBeEqual && negb (len E =? len A')%nat); [ reflexivity | ].
  apply range_fields_ext_in. intros key value Hin. unfold field_matches.
  now rewrite (Hsame key value Hin).
Qed.

Lemma comparison_reads_only_expected_fields_witness :
  jsonStringMatches doc_a1 doc_a1_b2 true
  = jsonStringMatches doc_a1 [("z", VSlice [VSlice []]); ("a", num 1)] true.
Proof.
  apply (comparison_reads_only_expected_fields doc_a1 doc_a1_b2
           [("z", VSlice [VSlice []]); ("a", num 1)] true).
  - intros key value [Heq | []]. injection Heq as <- <-. reflexivity.
  - reflexivity.
Defined.

(** X13.  An exact match leaves no room for other field names: when exact
    mode succeeds on an expected object with distinct field names, the
    actual object has the same field names. *)
Theorem exact_match_has_the_same_field_names (E A : object) (key : string) :
  jsonStringMatches E A true = Ret true ->
  distinct (keys E) = true ->
  (In key (keys E) <-> In key (keys A)).
Proof.
  intros H Hd. destruct (exact_same_keys E A H Hd) as [Hto Hback].
  split; [ apply Hto | apply Hback ].
Qed.

Lemma exact_match_has_the_same_field_names_witness :
  In "b" (keys doc_a1_b2) <-> In "b" (keys doc_b2_a1).
Proof.
  apply (exact_match_has_the_same_field_names doc_a1_b2 doc_b2_a1 "b"); reflexivity.
Defined.

(** X14.  A partial match survives the removal of expected fields: when
    [E] is matched by [A] in partial mode, so is every object made of
    entries of [E]. *)
Theorem partial_match_survives_dropping_expected_fields (E E' A : object) :
  incl E' E ->
  jsonStringMatches E A false = Ret true ->
  jsonStringMatches E' A false = Ret true.
Proof.
  intros Hincl H. rewrite jsonStringMatches_partial_true in *.
  intros key value Hin. apply H. now apply Hincl.
Qed.

Lemma partial_match_survives_dropping_expected_fields_witness :
  jsonStringMatches [("b", num 2)] doc_a1_b2_c3 false = Ret true.
Proof.
  apply (partial_match_survives_dropping_expected_fields doc_a1_b2 [("b", num 2)]
           doc_a1_b2_c3).
  - intros entry [<- | []]. right. left. reflexivity.
  - reflexivity.
Defined.

(* ----------------------------------------------------------------- *)
(** ** [StubType] and [JsonString] *)

Lemma StubType_UnmarshalJSON_stored_not_empty
  (json_decode : string -> option any) (data : string)
  (stored : StubType) (err : option error) :
  StubType_UnmarshalJSON json_decode data = Ret (stored, err) -> stored <> "".
Proof.
  unfold StubType_UnmarshalJSON, Unmarshal_new_string_ptr.
  destruct (json_decode data) as [ [ | b | f | s | items | fields ] | ]; simpl;
    try discriminate; intros H; injection H as <- <-; try discriminate.
  destruct (s =? "") eqn:Hs; [ discriminate | now apply String.eqb_neq ].
Qed.

(** X15.  When [StubType.UnmarshalJSON] returns, it returns no error and
    the type it stores is never empty: it is [mock], or the string the
    input holds. *)
Theorem StubType_UnmarshalJSON_never_stores_empty
  (json_decode : string -> option any) (data : string)
  (stored : StubType) (err : option error) :
  StubType_UnmarshalJSON json_decode data = Ret (stored, err) ->
  stored <> ""
  /\ err = None
  /\ (stored = "mock" \/ json_decode data = Some (VString stored)).
Proof.
  unfold StubType_UnmarshalJSON, Unmarshal_new_string_ptr.
  destruct (json_decode data) as [ [ | b | f | s | items | fields ] | ]; simpl;
    try discriminate; intros H; injection H as <- <-;
    try (split; [ discriminate | split; [ reflexivity | left; reflexivity ] ]).
  destruct (s =? "") eqn:Hs.
  - split; [ discriminate | split; [ reflexivity | left; reflexivity ] ].
  - apply String.eqb_neq in Hs.
    split; [ exact Hs | split; [ reflexivity | right; reflexivity ] ].
Qed.

Lemma StubType_UnmarshalJSON_never_stores_empty_witness :
  "forward" <> "" /\ ("forward" = "mock" \/ Sample.decode text_forward = Some (VString "forward")).
Proof.
  destruct (StubType_UnmarshalJSON_never_stores_empty
              Sample.decode text_forward "forward" None) as [H [_ H']].
  - reflexivity.
  - split; [ exact H | exact H' ].
Defined.

(** X16.  [StubType.UnmarshalJSON] panics exactly when its input is a JSON
    null or is not valid JSON: the pointer [str] is then nil when it is
    dereferenced.  On every other input it returns. *)
Theorem StubType_UnmarshalJSON_panics_on_null
  (json_decode : string -> option any) (data : string) :
  (StubType_UnmarshalJSON json_decode data = Panic NilPointerDereference
   <-> (json_decode data = None \/ json_decode data = Some VNil))
  /\ (returns (StubType_UnmarshalJSON json_decode data)
      <-> exists v, json_decode data = Some v /\ v <> VNil).
Proof.
  unfold StubType_UnmarshalJSON, Unmarshal_new_string_ptr.
  destruct (json_decode data) as [ v | ]; [ destruct v | ]; simpl.
  2-6: (split; split;
        [ discriminate
        | intros [H | H]; discriminate
        | intros _; eexists; split; [ reflexivity | discriminate ]
        | intros _; exact I ]).
  - split; split.
    + intros _. now right.
    + reflexivity.
    + contradiction.
    + intros [v [H Hv]]. injection H as <-. now contradiction Hv.
  - split; split.
    + intros _. now left.
    + reflexivity.
    + contradiction.
    + intros [v [H _]]. discriminate.
Qed.

Lemma StubType_UnmarshalJSON_panics_on_null_witness :
  StubType_UnmarshalJSON Sample.decode "null" = Panic NilPointerDereference.
Proof.
  destruct (StubType_UnmarshalJSON_panics_on_null Sample.decode "null") as [[_ H] _].
  apply H. right. reflexivity.
Defined.

(** X17.  After a stub record is decoded without a panic, its type is
    empty exactly when the record has no [type] key. *)
Theorem Stub_type_is_empty_exactly_when_omitted
  (json_decode : string -> option any) (typeField : option string) :
  Stub_Type_decoded json_decode typeField = Ret "" <-> typeField = None.
Proof.
  split.
  - destruct typeField as [ data | ]; [ | reflexivity ].
    unfold Stub_Type_decoded.
    destruct (StubType_UnmarshalJSON json_decode data) as [ [stored err] | e ] eqn:H;
      simpl; [ | discriminate ].
    intros Heq. injection Heq as ->.
    destruct (StubType_UnmarshalJSON_stored_not_empty _ _ _ _ H). reflexivity.
  - intros ->. reflexivity.
Qed.

Lemma Stub_type_is_empty_exactly_when_omitted_witness :
  Stub_Type_decoded Sample.decode (Some text_empty_string) <> Ret "".
Proof.
  intros H.
  apply (Stub_type_is_empty_exactly_when_omitted Sample.decode (Some text_empty_string)) in H.
  discriminate.
Defined.

(** X18.  A content that [json.Compact] accepts is stored compacted and
    written back as it is stored; reading what was written stores the same
    content again, compacted text being left as it is by [json.Compact]. *)
Theorem JsonString_store_and_write_back
  (json_Compact : string -> option string) (data compacted : string) :
  json_Compact data = Some compacted -> compacted <> "" ->
  JsonString_UnmarshalJSON json_Compact data = (compacted, None)
  /\ MarshalJSON (fst (JsonString_UnmarshalJSON json_Compact data)) = (compacted, None)
  /\ (json_Compact compacted = Some compacted ->
      JsonString_UnmarshalJSON json_Compact
        (fst (MarshalJSON (fst (JsonString_UnmarshalJSON json_Compact data))))
      = JsonString_UnmarshalJSON json_Compact data).
Proof.
  intros HC Hne.
  assert (HU : JsonString_UnmarshalJSON json_Compact data = (compacted, None)).
  { unfold JsonString_UnmarshalJSON. now rewrite HC. }
  assert (HM : MarshalJSON compacted = (compacted, None)).
  { unfold MarshalJSON. apply String.eqb_neq in Hne. now rewrite Hne. }
  rewrite HU. simpl fst. rewrite HM. simpl fst.
  split; [ reflexivity | split; [ reflexivity | ] ].
  intros Hidem. unfold JsonString_UnmarshalJSON. now rewrite Hidem.
Qed.

Lemma JsonString_store_and_write_back_witness :
  MarshalJSON (fst (JsonString_UnmarshalJSON Sample.Compact text_spaced)) = (text_a1, None).
Proof.
  destruct (JsonString_store_and_write_back Sample.Compact text_spaced text_a1)
    as [_ [H _]].
  - reflexivity.
  - vm_compute. discriminate.
  - exact H.
Defined.

(* ----------------------------------------------------------------- *)
(** ** [Matches] and [Equals] *)

(** X19.  A text that decodes to an object with pairwise distinct field
    names at every level, no NaN and no array inside an array is matched
    by itself: [Equals(X, X)] and [Matches(X, X)] return true. *)
Theorem Matches_and_Equals_reflexive_without_nested_arrays
  (json_decode : string -> option any) (X : JsonString) (fields : object) :
  json_decode X = Some (VMap fields) ->
  decoded (VMap fields) = true -> nested_slice_free (VMap fields) = true ->
  Equals json_decode X X = Ret true /\ Matches json_decode X X = Ret true.
Proof. apply Equals_Matches_refl. Qed.

Lemma Matches_and_Equals_reflexive_without_nested_arrays_witness :
  Equals Sample.decode text_a1_b2 text_a1_b2 = Ret true.
Proof.
  destruct (Matches_and_Equals_reflexive_without_nested_arrays
              Sample.decode text_a1_b2 doc_a1_b2) as [H _].
  - reflexivity.
  - reflexivity.
  - reflexivity.
  - exact H.
Defined.

(** X20.  [Matches] and [Equals] return, whatever the two texts are, when
    one of the two maps they decode holds no array inside an array; so
    they do when one of the texts is not valid JSON or is not an object. *)
Theorem Matches_and_Equals_return_without_nested_arrays
  (json_decode : string -> option any) (E A : JsonString) :
  (nested_slice_free (VMap (entries json_decode E)) = true
   \/ nested_slice_free (VMap (entries json_decode A)) = true ->
   returns (Matches json_decode E A) /\ returns (Equals json_decode E A))
  /\ ((forall fields, json_decode E <> Some (VMap fields)) ->
      returns (Matches json_decode E A) /\ returns (Equals json_decode E A)
      /\ returns (Matches json_decode A E) /\ returns (Equals json_decode A E)).
Proof.
  split.
  - intros H. unfold Matches, Equals. fold (entries json_decode E).
    fold (entries json_decode A).
    split; now apply comparison_panics_need_both_sides.
  - intros HE.
    assert (Hnil : entries json_decode E = []).
    { unfold entries, Unmarshal_new_map.
      destruct (json_decode E) as [ [ | | | | | fields ] | ]; try reflexivity.
      now contradiction (HE fields). }
    destruct (side_without_entries json_decode E A Hnil) as [-> [-> [-> ->]]].
    repeat split.
Qed.

Lemma Matches_and_Equals_return_without_nested_arrays_witness :
  returns (Matches Sample.decode text_nested_array text_a1)
  /\ returns (Equals Sample.decode text_nested_array text_truncated).
Proof.
  split.
  - destruct (Matches_and_Equals_return_without_nested_arrays
                Sample.decode text_nested_array text_a1) as [H _].
    apply H. right. reflexivity.
  - destruct (Matches_and_Equals_return_without_nested_arrays
                Sample.decode text_truncated text_nested_array) as [_ H].
    apply H. intros fields. vm_compute. discriminate.
Defined.
